(** * alsa-lib [src/input.c]: the generic stdio-like input interface

    A shallow embedding of the input handle of alsa-lib, of its stdio backend
    and of its memory-buffer backend, and the properties of the
    specification that can be stated about them.

    The C program is modelled over an explicit world: a heap of allocated
    blocks, the set of open stdio streams and the outcomes of the coming
    allocation requests.  Every C function becomes a function from its
    arguments and the world to an [outcome]: a value together with the new
    world, an [assert] failure, or undefined behaviour. *)

From Stdlib Require Import ZArith List Lia Bool.
From Stdlib.Strings Require Import Byte.
From stdpp Require Import base option list gmap.
From Equations Require Import Equations.

Local Open Scope Z_scope.

(** ** Outcomes of a C computation *)

Inductive outcome (A : Type) : Type :=
| Ret (a : A)      (* the call returns *)
| Aborted          (* an assert() failed: the process is aborted *)
| Undef.           (* undefined behaviour: an invalid memory or stream access *)

Arguments Ret {A} a.
Arguments Aborted {A}.
Arguments Undef {A}.

Global Instance outcome_bind : MBind outcome := fun A B k m =>
  match m with
  | Ret a => k a
  | Aborted => Aborted
  | Undef => Undef
  end.

(** [assert(e)] of <assert.h>; the source never defines NDEBUG. *)
Definition assert (e : bool) : outcome unit :=
  if e then Ret tt else Aborted.

(** ** Machine integers *)

(** [size_t]: 64 bits, unsigned; arithmetic wraps around. *)
Definition size_t_modulus : Z := 2 ^ 64.
Definition to_size_t (z : Z) : Z := z mod size_t_modulus.

(** [int]: 32 bits, signed. *)
Definition INT_MAX : Z := 2 ^ 31 - 1.
Definition to_int (z : Z) : Z := (z + 2 ^ 31) mod 2 ^ 32 - 2 ^ 31.

(** [(unsigned char) c] for an [int] c. *)
Definition to_uchar (c : Z) : Z := c mod 256.

(** The [int] value of an [unsigned char]. *)
Definition byte_to_int (c : byte) : Z := Z.of_N (Byte.to_N c).

Definition EOF : Z := -1.
Definition ENOMEM : Z := 12.

(** ['\n'] and ['\0']. *)
Definition newline : byte := x0a.
Definition nul : byte := x00.

(** ** Memory: a heap of blocks, pointers as block and offset *)

Definition block := nat.

Inductive pointer : Type :=
| NULL
| Ptr (b : block) (ofs : Z).

Arguments Ptr b%_nat ofs%_Z.

Global Instance pointer_eq_dec : EqDecision pointer.
Proof. solve_decision. Defined.

(** [p + n] on pointers. *)
Definition ptr_add (p : pointer) (n : Z) : pointer :=
  match p with
  | NULL => NULL
  | Ptr b ofs => Ptr b (ofs + n)
  end.

(** A stdio stream ([FILE]) is named by a number; [FILE *] may be null. *)
Definition FILE := nat.

Record world : Type := World {
  heap : gmap block (list byte);   (* the allocated blocks and their bytes *)
  streams : gset FILE;             (* the open stdio streams *)
  allocs : list bool               (* outcomes of the coming allocations *)
}.

Definition set_heap (w : world) (h : gmap block (list byte)) : world :=
  {| heap := h; streams := streams w; allocs := allocs w |}.

(** [*p] as an rvalue. *)
Definition load (w : world) (p : pointer) : outcome byte :=
  match p with
  | NULL => Undef
  | Ptr b ofs =>
      match heap w !! b with
      | None => Undef
      | Some l =>
          if ofs <? 0 then Undef
          else match l !! Z.to_nat ofs with
               | None => Undef
               | Some c => Ret c
               end
      end
  end.

(** [*p = c]. *)
Definition store (w : world) (p : pointer) (c : byte) : outcome world :=
  match p with
  | NULL => Undef
  | Ptr b ofs =>
      match heap w !! b with
      | None => Undef
      | Some l =>
          if (ofs <? 0) || (Z.of_nat (length l) <=? ofs) then Undef
          else Ret (set_heap w (<[b := <[Z.to_nat ofs := c]> l]> (heap w)))
      end
  end.

Arguments load : simpl never.
Arguments store : simpl never.

(** ** The input handle *)

(** Modelled from the spec: the enumeration [snd_input_type_t] is declared in
    a header of the library that is not among the sources; it is the tag of
    the kind of backend, with the two values that [input.c] stores. *)
Inductive snd_input_type_t : Type :=
| SND_INPUT_STDIO
| SND_INPUT_BUFFER.

(** [struct _snd_input_stdio]. *)
Record snd_input_stdio_t : Type := {
  stdio_close : Z;            (* int close *)
  stdio_fp : option FILE      (* FILE *fp *)
}.

(** [struct _snd_input_buffer]. *)
Record snd_input_buffer_t : Type := {
  buffer_buf : pointer;       (* unsigned char *buf *)
  buffer_ptr : pointer;       (* unsigned char *ptr *)
  buffer_size : Z             (* size_t size *)
}.

(** What [void *private_data] points to. *)
Inductive private_data_t : Type :=
| Private_stdio (stdio : snd_input_stdio_t)
| Private_buffer (buffer : snd_input_buffer_t).

(** [snd_input_ops_t *ops] points to one of the two static tables. *)
Inductive snd_input_ops_ref : Type :=
| Ref_stdio_ops       (* &snd_input_stdio_ops *)
| Ref_buffer_ops.     (* &snd_input_buffer_ops *)

(** [struct _snd_input]. *)
Record snd_input_t : Type := {
  input_type : snd_input_type_t;
  input_ops : snd_input_ops_ref;
  input_private_data : private_data_t
}.

Definition set_private_data (input : snd_input_t) (d : private_data_t) : snd_input_t :=
  {| input_type := input_type input;
     input_ops := input_ops input;
     input_private_data := d |}.

Definition set_buffer_ptr (buffer : snd_input_buffer_t) (p : pointer) : snd_input_buffer_t :=
  {| buffer_buf := buffer_buf buffer; buffer_ptr := p; buffer_size := buffer_size buffer |}.

Definition set_buffer_size (buffer : snd_input_buffer_t) (n : Z) : snd_input_buffer_t :=
  {| buffer_buf := buffer_buf buffer; buffer_ptr := buffer_ptr buffer; buffer_size := n |}.

(** [snd_input_buffer_t *buffer = input->private_data]: using the private
    data of another backend through this type is undefined. *)
Definition as_buffer (input : snd_input_t) : outcome snd_input_buffer_t :=
  match input_private_data input with
  | Private_buffer buffer => Ret buffer
  | Private_stdio _ => Undef
  end.

Definition as_stdio (input : snd_input_t) : outcome snd_input_stdio_t :=
  match input_private_data input with
  | Private_stdio stdio => Ret stdio
  | Private_buffer _ => Undef
  end.

Definition with_buffer (input : snd_input_t) (buffer : snd_input_buffer_t) : snd_input_t :=
  set_private_data input (Private_buffer buffer).

(** ** The buffer backend *)

(** The loop of [snd_input_buffer_gets]:
    [while (--size > 0 && bsize > 0) { ... }].  It runs on the buffer (whose
    [ptr] it advances), the destination [str], [size] and [bsize]. *)
Equations? gets_loop (buffer : snd_input_buffer_t) (str : pointer) (size bsize : Z)
    (w : world) : outcome (snd_input_buffer_t * pointer * Z * world)
    by wf (Z.to_nat bsize) lt :=
  gets_loop buffer str size bsize w
    with Sumbool.sumbool_of_bool ((0 <? to_size_t (size - 1)) && (0 <? bsize)) := {
    | right _ => Ret (buffer, str, bsize, w)
    | left _ =>
        match load w (buffer_ptr buffer) with
        | Ret c =>
            let buffer' := set_buffer_ptr buffer (ptr_add (buffer_ptr buffer) 1) in
            match store w str c with
            | Ret w' =>
                if byte_to_int c =? byte_to_int newline
                then Ret (buffer', ptr_add str 1, to_size_t (bsize - 1), w')
                else gets_loop buffer' (ptr_add str 1) (to_size_t (size - 1))
                       (to_size_t (bsize - 1)) w'
            | Aborted => Aborted
            | Undef => Undef
            end
        | Aborted => Aborted
        | Undef => Undef
        end }.
Proof.
  apply andb_prop in e as [_ Hb]. apply Z.ltb_lt in Hb.
  unfold to_size_t, size_t_modulus.
  assert ((bsize - 1) mod 2 ^ 64 <= bsize - 1) by (apply Z.mod_le; lia).
  lia.
Qed.

(** [snd_input_buffer_gets]. *)
Definition snd_input_buffer_gets (input : snd_input_t) (str : pointer) (size : Z)
    (w : world) : outcome (pointer * snd_input_t * world) :=
  buffer ← as_buffer input;
  let bsize := buffer_size buffer in
  '(buffer, str, bsize, w) ← gets_loop buffer str size bsize w;
  if bsize =? buffer_size buffer then Ret (NULL, with_buffer input buffer, w)
  else
    let buffer := set_buffer_size buffer bsize in
    w ← store w str nul;
    Ret (str, with_buffer input buffer, w).

(** [snd_input_buffer_getc]. *)
Definition snd_input_buffer_getc (input : snd_input_t) (w : world)
    : outcome (Z * snd_input_t * world) :=
  buffer ← as_buffer input;
  if buffer_size buffer =? 0 then Ret (EOF, input, w)
  else
    let buffer := set_buffer_size buffer (to_size_t (buffer_size buffer - 1)) in
    c ← load w (buffer_ptr buffer);
    let buffer := set_buffer_ptr buffer (ptr_add (buffer_ptr buffer) 1) in
    Ret (byte_to_int c, with_buffer input buffer, w).

(** [snd_input_buffer_ungetc]. *)
Definition snd_input_buffer_ungetc (input : snd_input_t) (c : Z) (w : world)
    : outcome (Z * snd_input_t * world) :=
  buffer ← as_buffer input;
  if bool_decide (buffer_ptr buffer = buffer_buf buffer) then Ret (EOF, input, w)
  else
    let buffer := set_buffer_ptr buffer (ptr_add (buffer_ptr buffer) (-1)) in
    b ← load w (buffer_ptr buffer);
    _ ← assert (byte_to_int b =? to_uchar c);
    let buffer := set_buffer_size buffer (to_size_t (buffer_size buffer + 1)) in
    Ret (c, with_buffer input buffer, w).

(** [free(p)] for a pointer to an array of bytes. *)
Definition free (w : world) (p : pointer) : outcome world :=
  match p with
  | NULL => Ret w
  | Ptr b ofs =>
      match heap w !! b with
      | None => Undef
      | Some _ => if ofs =? 0 then Ret (set_heap w (delete b (heap w))) else Undef
      end
  end.

(** [snd_input_buffer_close].  The structures are values of the model, so
    that [free(buffer)] has nothing to release. *)
Definition snd_input_buffer_close (input : snd_input_t) (w : world)
    : outcome (Z * world) :=
  buffer ← as_buffer input;
  w ← free w (buffer_buf buffer);
  Ret (0, w).

(** ** Allocation and the string functions of the C library *)

(** The next allocation request succeeds when the world says so; when the
    world says nothing more, memory is exhausted. *)
Definition next_alloc (w : world) : bool * world :=
  match allocs w with
  | [] => (false, w)
  | ok :: rest => (ok, {| heap := heap w; streams := streams w; allocs := rest |})
  end.

(** [calloc(1, sizeof(struct))]: only success or failure is visible, the
    structure itself is a value of the model. *)
Definition calloc_struct (w : world) : bool * world := next_alloc w.

(** [malloc(n)]: a fresh block of [n] bytes, or [NULL].  The bytes of the new
    block are indeterminate in C; they are zero here. *)
Definition malloc (w : world) (n : Z) : pointer * world :=
  let '(ok, w) := next_alloc w in
  if ok then
    let b := fresh (dom (heap w)) in
    (Ptr b 0, set_heap w (<[b := replicate (Z.to_nat n) nul]> (heap w)))
  else (NULL, w).

(** The index of the first null byte of a list. *)
Fixpoint find_nul (l : list byte) : option nat :=
  match l with
  | [] => None
  | c :: l' => if byte_to_int c =? 0 then Some O else S <$> find_nul l'
  end.

(** [strlen(p)]. *)
Definition strlen (w : world) (p : pointer) : outcome Z :=
  match p with
  | NULL => Undef
  | Ptr b ofs =>
      match heap w !! b with
      | None => Undef
      | Some l =>
          if ofs <? 0 then Undef
          else match find_nul (drop (Z.to_nat ofs) l) with
               | None => Undef
               | Some n => Ret (Z.of_nat n)
               end
      end
  end.

Fixpoint load_bytes (w : world) (p : pointer) (n : nat) : outcome (list byte) :=
  match n with
  | O => Ret []
  | S n' =>
      c ← load w p;
      cs ← load_bytes w (ptr_add p 1) n';
      Ret (c :: cs)
  end.

Fixpoint store_bytes (w : world) (p : pointer) (cs : list byte) : outcome world :=
  match cs with
  | [] => Ret w
  | c :: cs' =>
      w ← store w p c;
      store_bytes w (ptr_add p 1) cs'
  end.

(** [memcpy(dst, src, n)]. *)
Definition memcpy (w : world) (dst src : pointer) (n : Z) : outcome world :=
  cs ← load_bytes w src (Z.to_nat n);
  store_bytes w dst cs.

(** ** [snd_input_buffer_open] *)

(** The handle stored through [inputp] is returned next to the status. *)
Definition snd_input_buffer_open (inputp buf : pointer) (size : Z) (w : world)
    : outcome (Z * option snd_input_t * world) :=
  _ ← assert (bool_decide (inputp ≠ NULL));
  let '(buffer_ok, w) := calloc_struct w in
  if negb buffer_ok then Ret (- ENOMEM, None, w)
  else
    let '(input_ok, w) := calloc_struct w in
    if negb input_ok then Ret (- ENOMEM, None, w)
    else
      size ← (if size <? 0 then n ← strlen w buf; Ret (to_int n) else Ret size);
      (* size+1 is an int addition: overflow is undefined *)
      if INT_MAX <=? size then Undef
      else
        let '(p, w) := malloc w (to_size_t (size + 1)) in
        if bool_decide (p = NULL) then Ret (- ENOMEM, None, w)
        else
          w ← memcpy w p buf (to_size_t size);
          w ← store w (ptr_add p size) nul;
          let buffer := {| buffer_buf := p; buffer_ptr := p;
                           buffer_size := to_size_t size |} in
          let input := {| input_type := SND_INPUT_BUFFER;
                          input_ops := Ref_buffer_ops;
                          input_private_data := Private_buffer buffer |} in
          Ret (0, Some input, w).

(** ** The stdio functions of the C library *)

(** [fclose(fp)]: the stream is open no more; its status is 0.  Closing a
    null or a closed stream is undefined. *)
Definition fclose (w : world) (fp : option FILE) : outcome (Z * world) :=
  match fp with
  | None => Undef
  | Some f =>
      if bool_decide (f ∈ streams w)
      then Ret (0, {| heap := heap w; streams := streams w ∖ {[f]};
                      allocs := allocs w |})
      else Undef
  end.

(** The reading functions of the C library are not part of [input.c]: the
    stdio backend forwards to them, whatever they do. *)
Class stdio_library : Type := {
  fopen : list byte -> list byte -> world -> outcome (option FILE * Z * world);
    (* the stream or NULL, and errno *)
  vfscanf : option FILE -> list byte -> list pointer -> world -> outcome (Z * world);
  vsscanf : pointer -> list byte -> list pointer -> world -> outcome (Z * world);
  fgets : pointer -> Z -> option FILE -> world -> outcome (pointer * world);
  getc : option FILE -> world -> outcome (Z * world);
  ungetc : Z -> option FILE -> world -> outcome (Z * world)
}.

(** The functions that [input.c] names without calling them. *)
Inductive c_function : Type :=
| unistd_close.     (* int close(int fd), declared by <unistd.h> *)

(** A function designator used as a condition stands for the address of the
    function, which is never null. *)
Definition function_as_condition (f : c_function) : bool := true.

Section Handle.

Context {libc : stdio_library}.

(** ** The stdio backend *)

(** [snd_input_stdio_close].  No variable called [close] is in scope in its
    body ([stdio->close] is a member, reached only through [stdio]): the
    condition [close] is the function of <unistd.h>. *)
Definition snd_input_stdio_close (input : snd_input_t) (w : world)
    : outcome (Z * world) :=
  stdio ← as_stdio input;
  w ← (if function_as_condition unistd_close
       then '(_, w) ← fclose w (stdio_fp stdio); Ret w
       else Ret w);
  Ret (0, w).

Definition snd_input_stdio_scanf (input : snd_input_t) (format : list byte)
    (args : list pointer) (w : world) : outcome (Z * snd_input_t * world) :=
  stdio ← as_stdio input;
  '(r, w) ← vfscanf (stdio_fp stdio) format args w;
  Ret (r, input, w).

Definition snd_input_stdio_gets (input : snd_input_t) (str : pointer) (size : Z)
    (w : world) : outcome (pointer * snd_input_t * world) :=
  stdio ← as_stdio input;
  '(r, w) ← fgets str size (stdio_fp stdio) w;
  Ret (r, input, w).

Definition snd_input_stdio_getc (input : snd_input_t) (w : world)
    : outcome (Z * snd_input_t * world) :=
  stdio ← as_stdio input;
  '(r, w) ← getc (stdio_fp stdio) w;
  Ret (r, input, w).

Definition snd_input_stdio_ungetc (input : snd_input_t) (c : Z) (w : world)
    : outcome (Z * snd_input_t * world) :=
  stdio ← as_stdio input;
  '(r, w) ← ungetc c (stdio_fp stdio) w;
  Ret (r, input, w).

(** [snd_input_buffer_scanf]: [assert(0)] comes before the call. *)
Definition snd_input_buffer_scanf (input : snd_input_t) (format : list byte)
    (args : list pointer) (w : world) : outcome (Z * snd_input_t * world) :=
  buffer ← as_buffer input;
  _ ← assert false;
  '(r, w) ← vsscanf (buffer_ptr buffer) format args w;
  Ret (r, input, w).

(** ** The tables of operations and the dispatch *)

Record snd_input_ops_t : Type := {
  ops_close : snd_input_t -> world -> outcome (Z * world);
  ops_scanf : snd_input_t -> list byte -> list pointer -> world ->
              outcome (Z * snd_input_t * world);
  ops_gets : snd_input_t -> pointer -> Z -> world ->
             outcome (pointer * snd_input_t * world);
  ops_getch : snd_input_t -> world -> outcome (Z * snd_input_t * world);
  ops_ungetch : snd_input_t -> Z -> world -> outcome (Z * snd_input_t * world)
}.

Definition snd_input_stdio_ops : snd_input_ops_t := {|
  ops_close := snd_input_stdio_close;
  ops_scanf := snd_input_stdio_scanf;
  ops_gets := snd_input_stdio_gets;
  ops_getch := snd_input_stdio_getc;
  ops_ungetch := snd_input_stdio_ungetc
|}.

Definition snd_input_buffer_ops : snd_input_ops_t := {|
  ops_close := snd_input_buffer_close;
  ops_scanf := snd_input_buffer_scanf;
  ops_gets := snd_input_buffer_gets;
  ops_getch := snd_input_buffer_getc;
  ops_ungetch := snd_input_buffer_ungetc
|}.

(** [input->ops]. *)
Definition ops_of (input : snd_input_t) : snd_input_ops_t :=
  match input_ops input with
  | Ref_stdio_ops => snd_input_stdio_ops
  | Ref_buffer_ops => snd_input_buffer_ops
  end.

(** [snd_input_close]: [free(input)] has nothing to release in the model, the
    handle is not returned. *)
Definition snd_input_close (input : snd_input_t) (w : world) : outcome (Z * world) :=
  '(err, w) ← ops_close (ops_of input) input w;
  Ret (err, w).

Definition snd_input_scanf (input : snd_input_t) (format : list byte)
    (args : list pointer) (w : world) : outcome (Z * snd_input_t * world) :=
  ops_scanf (ops_of input) input format args w.

Definition snd_input_gets (input : snd_input_t) (str : pointer) (size : Z)
    (w : world) : outcome (pointer * snd_input_t * world) :=
  ops_gets (ops_of input) input str size w.

Definition snd_input_getc (input : snd_input_t) (w : world)
    : outcome (Z * snd_input_t * world) :=
  ops_getch (ops_of input) input w.

Definition snd_input_ungetc (input : snd_input_t) (c : Z) (w : world)
    : outcome (Z * snd_input_t * world) :=
  ops_ungetch (ops_of input) input c w.

End Handle.

(** ** [snd_input_stdio_attach] and [snd_input_stdio_open] *)

Definition snd_input_stdio_attach (inputp : pointer) (fp : option FILE) (close : Z)
    (w : world) : outcome (Z * option snd_input_t * world) :=
  _ ← assert (bool_decide (inputp ≠ NULL) && bool_decide (fp ≠ None));
  let '(stdio_ok, w) := calloc_struct w in
  if negb stdio_ok then Ret (- ENOMEM, None, w)
  else
    let '(input_ok, w) := calloc_struct w in
    if negb input_ok then Ret (- ENOMEM, None, w)
    else
      let stdio := {| stdio_close := close; stdio_fp := fp |} in
      let input := {| input_type := SND_INPUT_STDIO;
                      input_ops := Ref_stdio_ops;
                      input_private_data := Private_stdio stdio |} in
      Ret (0, Some input, w).

Definition snd_input_stdio_open `{stdio_library} (inputp : pointer)
    (file mode : list byte) (w : world) : outcome (Z * option snd_input_t * world) :=
  '(fp, errno, w) ← fopen file mode w;
  if bool_decide (fp = None) then Ret (- errno, None, w)
  else
    '(err, input, w) ← snd_input_stdio_attach inputp fp 1 w;
    w ← (if err <? 0 then '(_, w) ← fclose w fp; Ret w else Ret w);
    Ret (err, input, w).

(** The buffer-backed handles: what [snd_input_buffer_open] builds around a
    buffer structure. *)
Definition buffer_input (buffer : snd_input_buffer_t) : snd_input_t :=
  {| input_type := SND_INPUT_BUFFER;
     input_ops := Ref_buffer_ops;
     input_private_data := Private_buffer buffer |}.

(** The stream-backed handles: what [snd_input_stdio_attach] builds. *)
Definition stdio_input (stdio : snd_input_stdio_t) : snd_input_t :=
  {| input_type := SND_INPUT_STDIO;
     input_ops := Ref_stdio_ops;
     input_private_data := Private_stdio stdio |}.

(** ** Sequences of operations on a buffer handle *)

(** [n] successive calls of [snd_input_buffer_getc], with the values they
    return. *)
Fixpoint getc_times (n : nat) (input : snd_input_t) (w : world)
    : outcome (list Z * snd_input_t * world) :=
  match n with
  | O => Ret ([], input, w)
  | S n' =>
      '(c, input, w) ← snd_input_buffer_getc input w;
      '(cs, input, w) ← getc_times n' input w;
      Ret (c :: cs, input, w)
  end.

Inductive operation : Type :=
| Read_char                                   (* snd_input_buffer_getc *)
| Push_back_char (c : Z)                      (* snd_input_buffer_ungetc *)
| Read_line (str : pointer) (size : Z).       (* snd_input_buffer_gets *)

Definition run_operation (op : operation) (input : snd_input_t) (w : world)
    : outcome (snd_input_t * world) :=
  match op with
  | Read_char =>
      '(_, input, w) ← snd_input_buffer_getc input w; Ret (input, w)
  | Push_back_char c =>
      '(_, input, w) ← snd_input_buffer_ungetc input c w; Ret (input, w)
  | Read_line str size =>
      '(_, input, w) ← snd_input_buffer_gets input str size w; Ret (input, w)
  end.

Fixpoint run_operations (ops : list operation) (input : snd_input_t) (w : world)
    : outcome (snd_input_t * world) :=
  match ops with
  | [] => Ret (input, w)
  | op :: ops' =>
      '(input, w) ← run_operation op input w;
      run_operations ops' input w
  end.

(** The remaining count of a handle: [buffer->size]. *)
Definition remaining (input : snd_input_t) : Z :=
  match input_private_data input with
  | Private_buffer buffer => buffer_size buffer
  | Private_stdio _ => 0
  end.

(** ** A line, as the specification describes it *)

(** The bytes that a line read of capacity [cap + 1] copies out of the unread
    bytes [src]: one byte after the other until [cap] bytes are copied, no
    byte remains, or a newline is copied.  This definition follows the words
    of the specification; the code is [gets_loop]. *)
Fixpoint line_prefix (cap : Z) (src : list byte) : list byte :=
  match src with
  | [] => []
  | c :: src' =>
      if cap <=? 0 then []
      else if Byte.eqb c newline then [c]
      else c :: line_prefix (cap - 1) src'
  end.

(** ** The invariant of the buffer backend *)

(** [buf] and [ptr] point into the same block, the array of the handle, of
    [original_size + 1] bytes; [ptr] is [buf + cursor]. *)
Definition buffer_invariant (original_size : Z) (input : snd_input_t) (w : world)
    : Prop :=
  exists (buffer : snd_input_buffer_t) (b : block) (cursor : Z) (array : list byte),
    input_private_data input = Private_buffer buffer /\
    buffer_buf buffer = Ptr b 0 /\
    buffer_ptr buffer = Ptr b cursor /\
    heap w !! b = Some array /\
    Z.of_nat (length array) = original_size + 1 /\
    original_size < INT_MAX /\
    0 <= buffer_size buffer <= Z.of_nat (length array) - 1 /\
    0 <= cursor <= original_size /\
    cursor + buffer_size buffer = original_size.

(** ** Worlds and handles used as examples *)

(** A caller holding the text "ab" in block 1, with a destination of 4 bytes
    in block 2. *)
Definition world_ab : world :=
  {| heap := {[ 1%nat := [x61; x62; x00]; 2%nat := [x2e; x2e; x2e; x2e] ]};
     streams := ∅;
     allocs := [true; true; true] |}.

(** A caller holding "line1\nline2" in block 1, with a destination of 32
    bytes in block 2. *)
Definition text_lines : list byte :=
  [x6c; x69; x6e; x65; x31; x0a; x6c; x69; x6e; x65; x32; x00].

(** The same text without its terminator: the bytes to read. *)
Definition text_lines_unread : list byte :=
  [x6c; x69; x6e; x65; x31; x0a; x6c; x69; x6e; x65; x32].

Definition world_lines : world :=
  {| heap := {[ 1%nat := text_lines; 2%nat := replicate 32 x2e ]};
     streams := ∅;
     allocs := [true; true; true] |}.

(** A caller with the open stream 3, before and after two allocations. *)
Definition world_stream : world :=
  {| heap := ∅; streams := {[ 3%nat ]}; allocs := [true; true] |}.

Definition world_stream_attached : world :=
  {| heap := ∅; streams := {[ 3%nat ]}; allocs := [] |}.

(** The handle over a block [b] holding [n] bytes and their terminator, with
    the cursor at [cursor]. *)
Definition buffer_handle (b : block) (n cursor : Z) : snd_input_t :=
  buffer_input {| buffer_buf := Ptr b 0; buffer_ptr := Ptr b cursor;
                  buffer_size := n - cursor |}.

Arguments buffer_handle b%_nat (n cursor)%_Z.

(** The worlds after [snd_input_buffer_open] copied 2, 0 and 11 bytes of
    block 1 into the new block 3. *)
Definition world_ab_open : world :=
  {| heap := {[ 1%nat := [x61; x62; x00]; 2%nat := [x2e; x2e; x2e; x2e];
                3%nat := [x61; x62; x00] ]};
     streams := ∅;
     allocs := [] |}.

(** The same world once "ab" and its terminator are in the destination. *)
Definition world_ab_read : world :=
  {| heap := {[ 1%nat := [x61; x62; x00]; 2%nat := [x61; x62; x00; x2e];
                3%nat := [x61; x62; x00] ]};
     streams := ∅;
     allocs := [] |}.

Definition world_empty_open : world :=
  {| heap := {[ 1%nat := [x61; x62; x00]; 2%nat := [x2e; x2e; x2e; x2e];
                3%nat := [x00] ]};
     streams := ∅;
     allocs := [] |}.

Definition world_lines_open : world :=
  {| heap := {[ 1%nat := text_lines; 2%nat := replicate 32 x2e;
                3%nat := text_lines ]};
     streams := ∅;
     allocs := [] |}.

(** ** What an operation leaves alone: the streams, the allocation outcomes
    and the size of every block *)

Definition same_shape (w w' : world) : Prop :=
  streams w' = streams w /\ allocs w' = allocs w /\
  forall b : block, length <$> (heap w' !! b) = length <$> (heap w !! b).

(** ** Further notions used to state what the code does *)

(** The array of a handle: [buffer->buf]. *)
Definition handle_buf (input : snd_input_t) : pointer :=
  match input_private_data input with
  | Private_buffer buffer => buffer_buf buffer
  | Private_stdio _ => NULL
  end.

(** From [w] to [w'] nothing changed but, at most, the bytes of block [d] at
    the offsets from [lo] to [hi - 1]: same streams, same allocation
    outcomes, same blocks of the same sizes, same bytes elsewhere. *)
Definition changes_only_within (w w' : world) (d : block) (lo hi : Z) : Prop :=
  same_shape w w' /\
  (forall b : block, b <> d -> heap w' !! b = heap w !! b) /\
  (forall (l l' : list byte) (j : nat),
     heap w !! d = Some l -> heap w' !! d = Some l' ->
     Z.of_nat j < lo \/ hi <= Z.of_nat j -> l' !! j = l !! j).

(** A caller that reads a buffer line by line: up to [n] calls of
    [snd_input_buffer_gets] into the same destination, until one returns
    null.  After each call it takes from the destination as many bytes as the
    remaining count went down. *)
Fixpoint gets_lines (n : nat) (input : snd_input_t) (str : pointer) (size : Z)
    (w : world) : outcome (list (list byte) * snd_input_t * world) :=
  match n with
  | O => Ret ([], input, w)
  | S n' =>
      '(r, input', w) ← snd_input_buffer_gets input str size w;
      if bool_decide (r = NULL) then Ret ([], input', w)
      else
        line ← load_bytes w str (Z.to_nat (remaining input - remaining input'));
        '(lines, input'', w) ← gets_lines n' input' str size w;
        Ret (line :: lines, input'', w)
  end.

(** A C library used as an example: [fopen] opens the stream 5, every other
    function is left undefined. *)
Definition example_stdio : stdio_library := {|
  fopen := fun _ _ w =>
    Ret (Some 5%nat, 0,
         {| heap := heap w; streams := {[ 5%nat ]} ∪ streams w; allocs := allocs w |});
  vfscanf := fun _ _ _ _ => Undef;
  vsscanf := fun _ _ _ _ => Undef;
  fgets := fun _ _ _ _ => Undef;
  getc := fun _ _ => Undef;
  ungetc := fun _ _ _ => Undef
|}.

(** Worlds with room for two allocations, and for one. *)
Definition world_two_allocs : world :=
  {| heap := ∅; streams := ∅; allocs := [true; true] |}.

Definition world_one_alloc : world :=
  {| heap := ∅; streams := ∅; allocs := [true] |}.


(** [world_ab_open] once the caller has overwritten its own text. *)
Definition world_ab_overwritten : world :=
  {| heap := {[ 1%nat := [x00; x00; x00]; 2%nat := [x2e; x2e; x2e; x2e];
                3%nat := [x61; x62; x00] ]};
     streams := ∅;
     allocs := [] |}.

(** * Properties *)

(** Splits a goal [A1 /\ ... /\ An] into its [n] parts and no further. *)
Ltac split_conj :=
  lazymatch goal with
  | |- _ /\ _ => refine (conj _ _); [| split_conj]
  | |- _ => idtac
  end.

(** ** Elementary facts *)

Lemma set_heap_id (w : world) : set_heap w (heap w) = w.
Proof. by destruct w. Qed.

Lemma set_heap_set_heap (w : world) h h' : set_heap (set_heap w h) h' = set_heap w h'.
Proof. done. Qed.

Lemma with_buffer_id (input : snd_input_t) (buffer : snd_input_buffer_t) :
  input_private_data input = Private_buffer buffer -> with_buffer input buffer = input.
Proof. destruct input; simpl; intros ->; done. Qed.

Lemma with_buffer_with_buffer (input : snd_input_t) (b1 b2 : snd_input_buffer_t) :
  with_buffer (with_buffer input b1) b2 = with_buffer input b2.
Proof. done. Qed.

Lemma as_buffer_with_buffer (input : snd_input_t) (buffer : snd_input_buffer_t) :
  as_buffer (with_buffer input buffer) = Ret buffer.
Proof. done. Qed.

Lemma as_buffer_buffer_input (buffer : snd_input_buffer_t) :
  as_buffer (buffer_input buffer) = Ret buffer.
Proof. done. Qed.

Lemma as_buffer_Ret (input : snd_input_t) (buffer : snd_input_buffer_t) :
  as_buffer input = Ret buffer <-> input_private_data input = Private_buffer buffer.
Proof.
  unfold as_buffer. destruct (input_private_data input); split; congruence.
Qed.

Lemma byte_to_int_range (c : byte) : 0 <= byte_to_int c <= 255.
Proof. unfold byte_to_int. pose proof (Byte.to_N_bounded c). lia. Qed.

Lemma byte_to_int_inj (c c' : byte) : byte_to_int c = byte_to_int c' -> c = c'.
Proof.
  unfold byte_to_int. intros E. apply N2Z.inj in E.
  pose proof (Byte.of_to_N c) as Hc. rewrite E, Byte.of_to_N in Hc. congruence.
Qed.

Lemma to_uchar_byte (c : byte) : to_uchar (byte_to_int c) = byte_to_int c.
Proof. unfold to_uchar. pose proof (byte_to_int_range c). apply Z.mod_small. lia. Qed.

Lemma to_size_t_small (z : Z) : 0 <= z < size_t_modulus -> to_size_t z = z.
Proof. apply Z.mod_small. Qed.

Lemma INT_MAX_size_t : INT_MAX < size_t_modulus.
Proof. done. Qed.

Lemma load_Ptr (w : world) (b : block) (o : nat) (l : list byte) (c : byte) :
  heap w !! b = Some l -> l !! o = Some c -> load w (Ptr b (Z.of_nat o)) = Ret c.
Proof.
  intros Hb Ho. unfold load. rewrite Hb.
  destruct (Z.ltb_spec (Z.of_nat o) 0); [lia |]. by rewrite Nat2Z.id, Ho.
Qed.

Lemma store_Ptr (w : world) (b : block) (o : nat) (l : list byte) (c : byte) :
  heap w !! b = Some l -> (o < length l)%nat ->
  store w (Ptr b (Z.of_nat o)) c = Ret (set_heap w (<[b := <[o := c]> l]> (heap w))).
Proof.
  intros Hb Ho. unfold store. rewrite Hb.
  destruct (Z.ltb_spec (Z.of_nat o) 0); [lia |].
  destruct (Z.leb_spec (Z.of_nat (length l)) (Z.of_nat o)); [lia |].
  simpl. by rewrite Nat2Z.id.
Qed.

(** The two cases of the loop of [snd_input_buffer_gets]. *)
Lemma gets_loop_exit buffer str size bsize w :
  (0 <? to_size_t (size - 1)) && (0 <? bsize) = false ->
  gets_loop buffer str size bsize w = Ret (buffer, str, bsize, w).
Proof.
  intros E. rewrite gets_loop_equation_1.
  destruct (Sumbool.sumbool_of_bool _) as [E' | E']; [congruence | done].
Qed.

Lemma gets_loop_enter buffer str size bsize w :
  (0 <? to_size_t (size - 1)) && (0 <? bsize) = true ->
  gets_loop buffer str size bsize w =
  c ← load w (buffer_ptr buffer);
  let buffer' := set_buffer_ptr buffer (ptr_add (buffer_ptr buffer) 1) in
  w' ← store w str c;
  if byte_to_int c =? byte_to_int newline
  then Ret (buffer', ptr_add str 1, to_size_t (bsize - 1), w')
  else gets_loop buffer' (ptr_add str 1) (to_size_t (size - 1)) (to_size_t (bsize - 1)) w'.
Proof.
  intros E. rewrite gets_loop_equation_1.
  destruct (Sumbool.sumbool_of_bool _) as [E' | E']; [| congruence].
  simpl. destruct (load w (buffer_ptr buffer)); done.
Qed.

Lemma ptr_add_0 (p : pointer) : ptr_add p 0 = p.
Proof. destruct p; simpl; [done | by rewrite Z.add_0_r]. Qed.

Lemma ptr_add_add (p : pointer) (n m : Z) : ptr_add (ptr_add p n) m = ptr_add p (n + m).
Proof. destruct p; simpl; [done | by rewrite Z.add_assoc]. Qed.

Lemma set_buffer_ptr_id (buffer : snd_input_buffer_t) :
  set_buffer_ptr buffer (buffer_ptr buffer) = buffer.
Proof. by destruct buffer. Qed.

(** ** What an operation leaves alone *)

Lemma same_shape_refl (w : world) : same_shape w w.
Proof. done. Qed.

Lemma same_shape_trans (w1 w2 w3 : world) :
  same_shape w1 w2 -> same_shape w2 w3 -> same_shape w1 w3.
Proof.
  intros (? & ? & H12) (? & ? & H23).
  split; [congruence |]. split; [congruence |].
  intros b. by rewrite H23, H12.
Qed.

Lemma store_Ret_inv (w w' : world) (p : pointer) (c : byte) :
  store w p c = Ret w' ->
  exists (b : block) (o : nat) (l : list byte),
    p = Ptr b (Z.of_nat o) /\ heap w !! b = Some l /\ (o < length l)%nat /\
    w' = set_heap w (<[b := <[o := c]> l]> (heap w)).
Proof.
  unfold store. destruct p as [| b ofs]; [done |].
  destruct (heap w !! b) as [l |] eqn:Hb; [| done].
  destruct (Z.ltb_spec ofs 0); [done |].
  destruct (Z.leb_spec (Z.of_nat (length l)) ofs); [done |].
  simpl. intros [= <-]. exists b, (Z.to_nat ofs), l.
  rewrite Z2Nat.id by lia. repeat split; [done | lia].
Qed.

Lemma store_same_shape (w w' : world) (p : pointer) (c : byte) :
  store w p c = Ret w' -> same_shape w w'.
Proof.
  intros (b & o & l & -> & Hb & Ho & ->)%store_Ret_inv.
  repeat split. intros b'. simpl.
  destruct (decide (b = b')) as [<- | Hne].
  - rewrite lookup_insert_eq, Hb. simpl. by rewrite length_insert.
  - by rewrite lookup_insert_ne.
Qed.

Lemma load_Ret_inv (w : world) (p : pointer) (c : byte) :
  load w p = Ret c ->
  exists (b : block) (o : nat) (l : list byte),
    p = Ptr b (Z.of_nat o) /\ heap w !! b = Some l /\ l !! o = Some c.
Proof.
  unfold load. destruct p as [| b ofs]; [done |].
  destruct (heap w !! b) as [l |] eqn:Hb; [| done].
  destruct (Z.ltb_spec ofs 0); [done |].
  destruct (l !! Z.to_nat ofs) as [c' |] eqn:Hc; [| done].
  intros [= <-]. exists b, (Z.to_nat ofs), l. by rewrite Z2Nat.id by lia.
Qed.

(** ** The loop of [snd_input_buffer_gets], for any destination *)


(** The loop copies some number [k] of bytes, at most [bsize]: it advances
    both pointers by [k], takes [k] from [bsize], and changes no block size.
    With [k = 0] it changes nothing at all. *)
Lemma gets_loop_counts buffer str size bsize w buffer' str' bsize' w' :
  0 <= bsize < size_t_modulus ->
  gets_loop buffer str size bsize w = Ret (buffer', str', bsize', w') ->
  exists k : nat,
    Z.of_nat k <= bsize /\
    bsize' = bsize - Z.of_nat k /\
    buffer' = set_buffer_ptr buffer (ptr_add (buffer_ptr buffer) (Z.of_nat k)) /\
    str' = ptr_add str (Z.of_nat k) /\
    same_shape w w' /\
    (k = O -> w' = w /\ (0 <? to_size_t (size - 1)) && (0 <? bsize) = false) /\
    (k <> O -> str <> NULL /\ (0 <? to_size_t (size - 1)) && (0 <? bsize) = true).
Proof.
  remember (Z.to_nat bsize) as n eqn:Hn.
  revert buffer str size bsize w Hn.
  induction n as [| n IH]; intros buffer str size bsize w Hn Hrange Hloop.
  - assert (Hcond : (0 <? to_size_t (size - 1)) && (0 <? bsize) = false).
    { apply andb_false_iff. right. apply Z.ltb_ge. lia. }
    rewrite gets_loop_exit in Hloop by done.
    injection Hloop as <- <- <- <-. exists O.
    rewrite ptr_add_0, ptr_add_0, set_buffer_ptr_id, Z.sub_0_r.
    split_conj; (done || lia).
  - destruct ((0 <? to_size_t (size - 1)) && (0 <? bsize)) eqn:Hcond.
    2:{ rewrite gets_loop_exit in Hloop by done.
        injection Hloop as <- <- <- <-. exists O.
        rewrite ptr_add_0, ptr_add_0, set_buffer_ptr_id, Z.sub_0_r.
        split_conj; (done || lia). }
    rewrite gets_loop_enter in Hloop by done.
    destruct (load w (buffer_ptr buffer)) as [c | |] eqn:Hload; try done.
    simpl in Hloop.
    destruct (store w str c) as [w1 | |] eqn:Hstore; try done.
    simpl in Hloop.
    assert (Hstr : str <> NULL) by (intros ->; done).
    assert (Hb1 : to_size_t (bsize - 1) = bsize - 1)
      by (apply to_size_t_small; lia).
    rewrite Hb1 in Hloop.
    pose proof (store_same_shape _ _ _ _ Hstore) as Hshape.
    destruct (byte_to_int c =? byte_to_int newline).
    + injection Hloop as <- <- <- <-. exists 1%nat.
      split_conj; try (done || lia).
    + apply IH in Hloop; [| lia | lia].
      destruct Hloop as (k & Hk & -> & -> & -> & Hshape' & _ & _).
      exists (S k). simpl buffer_ptr.
      rewrite !ptr_add_add.
      replace (1 + Z.of_nat k) with (Z.of_nat (S k)) by lia.
      split_conj; try (done || lia).
      eapply same_shape_trans; eassumption.
Qed.

(** [snd_input_buffer_gets], for any destination: with no byte copied it
    returns [NULL] and changes nothing; with [k > 0] bytes copied it returns
    the destination advanced by [k]. *)
Lemma snd_input_buffer_gets_counts input buffer str size w r input' w' :
  input_private_data input = Private_buffer buffer ->
  0 <= buffer_size buffer < size_t_modulus ->
  snd_input_buffer_gets input str size w = Ret (r, input', w') ->
  exists k : nat,
    Z.of_nat k <= buffer_size buffer /\
    input' = with_buffer input
               {| buffer_buf := buffer_buf buffer;
                  buffer_ptr := ptr_add (buffer_ptr buffer) (Z.of_nat k);
                  buffer_size := buffer_size buffer - Z.of_nat k |} /\
    same_shape w w' /\
    (k = O -> r = NULL /\ input' = input /\ w' = w /\
              (0 <? to_size_t (size - 1)) && (0 <? buffer_size buffer) = false) /\
    (k <> O -> r = ptr_add str (Z.of_nat k) /\ str <> NULL /\
               (0 <? to_size_t (size - 1)) && (0 <? buffer_size buffer) = true).
Proof.
  intros Hpriv Hrange Hgets. unfold snd_input_buffer_gets in Hgets.
  apply as_buffer_Ret in Hpriv as Hbuf. rewrite Hbuf in Hgets. simpl in Hgets.
  destruct (gets_loop buffer str size (buffer_size buffer) w)
    as [[[[buffer1 str1] bsize1] w1] | |] eqn:Hloop; try done.
  simpl in Hgets.
  apply gets_loop_counts in Hloop as (k & Hk & -> & -> & -> & Hshape & H0 & Hpos);
    [| done].
  exists k. simpl in Hgets.
  destruct (Z.eqb_spec (buffer_size buffer - Z.of_nat k) (buffer_size buffer))
    as [E | E].
  - assert (k = O) as -> by lia.
    injection Hgets as <- <- <-. destruct (H0 eq_refl) as [-> Hcond].
    simpl. rewrite ptr_add_0, Z.sub_0_r.
    replace {| buffer_buf := _; buffer_ptr := _; buffer_size := _ |}
      with buffer by (by destruct buffer).
    rewrite set_buffer_ptr_id, with_buffer_id by done.
    split_conj; try (done || lia).
  - assert (k <> O) as Hk0 by lia.
    destruct (store w1 (ptr_add str (Z.of_nat k)) nul) as [w2 | |] eqn:Hstore;
      try done.
    injection Hgets as <- <- <-.
    split_conj; try (done || lia).
    + eapply same_shape_trans; [eassumption |]. by eapply store_same_shape.
    + intros _. destruct (Hpos Hk0). done.
Qed.

(** ** The examples are what [snd_input_buffer_open] builds *)

Lemma open_world_ab :
  snd_input_buffer_open (Ptr 0 0) (Ptr 1 0) 2 world_ab =
  Ret (0, Some (buffer_handle 3 2 0), world_ab_open).
Proof. vm_compute. reflexivity. Qed.

Lemma open_world_empty :
  snd_input_buffer_open (Ptr 0 0) (Ptr 1 0) 0 world_ab =
  Ret (0, Some (buffer_handle 3 0 0), world_empty_open).
Proof. vm_compute. reflexivity. Qed.

Lemma open_world_lines :
  snd_input_buffer_open (Ptr 0 0) (Ptr 1 0) (-1) world_lines =
  Ret (0, Some (buffer_handle 3 11 0), world_lines_open).
Proof. vm_compute. reflexivity. Qed.

(** ** Push-back at the start of the array *)

(** C8: [snd_input_buffer_ungetc] called while the cursor is at the start of
    the array of the handle returns EOF and leaves the handle (cursor and
    remaining count) and the world as they were, whatever the character and
    whatever the buffer, empty or not. *)
Theorem ungetc_at_start_is_EOF (input : snd_input_t) (buffer : snd_input_buffer_t)
    (c : Z) (w : world) :
  input_private_data input = Private_buffer buffer ->
  buffer_ptr buffer = buffer_buf buffer ->
  snd_input_buffer_ungetc input c w = Ret (EOF, input, w).
Proof.
  intros Hpriv Hstart. unfold snd_input_buffer_ungetc.
  apply as_buffer_Ret in Hpriv. rewrite Hpriv. simpl.
  by rewrite bool_decide_eq_true_2.
Qed.

(** The handle just opened over an empty buffer is such a handle. *)
Lemma ungetc_at_start_is_EOF_witness :
  snd_input_buffer_open (Ptr 0 0) (Ptr 1 0) 0 world_ab =
    Ret (0, Some (buffer_handle 3 0 0), world_empty_open) /\
  input_private_data (buffer_handle 3 0 0) =
    Private_buffer {| buffer_buf := Ptr 3 0; buffer_ptr := Ptr 3 0; buffer_size := 0 |} /\
  buffer_ptr {| buffer_buf := Ptr 3 0; buffer_ptr := Ptr 3 0; buffer_size := 0 |} =
    buffer_buf {| buffer_buf := Ptr 3 0; buffer_ptr := Ptr 3 0; buffer_size := 0 |} /\
  snd_input_buffer_ungetc (buffer_handle 3 0 0) 97 world_empty_open =
    Ret (EOF, buffer_handle 3 0 0, world_empty_open).
Proof.
  split; [vm_compute; reflexivity |].
  split; [reflexivity |]. split; [reflexivity |].
  apply (ungetc_at_start_is_EOF (buffer_handle 3 0 0)
           {| buffer_buf := Ptr 3 0; buffer_ptr := Ptr 3 0; buffer_size := 0 |});
    reflexivity.
Defined.

(** ** A null result of [snd_input_buffer_gets] *)

(** C10: a null result of [snd_input_buffer_gets] comes with the handle (cursor
    and remaining count) and the world (so the destination) unchanged; and
    the result is null exactly when no byte remains or when [size] is 1, so
    that with [size = 1] it is null although unread bytes remain: a null
    result does not mean the end of the input. *)
Theorem gets_null_changes_nothing (input : snd_input_t) (buffer : snd_input_buffer_t)
    (str : pointer) (size : Z) (w : world) :
  input_private_data input = Private_buffer buffer ->
  0 <= buffer_size buffer < size_t_modulus ->
  0 <= size < size_t_modulus ->
  (buffer_size buffer = 0 \/ size = 1 ->
   snd_input_buffer_gets input str size w = Ret (NULL, input, w)) /\
  (forall input' w',
     snd_input_buffer_gets input str size w = Ret (NULL, input', w') ->
     input' = input /\ w' = w /\ (buffer_size buffer = 0 \/ size = 1)) /\
  (forall r input' w',
     snd_input_buffer_gets input str size w = Ret (r, input', w') ->
     (r = NULL <-> remaining input' = remaining input)).
Proof.
  intros Hpriv Hrange Hsize.
  assert (Hcond : (0 <? to_size_t (size - 1)) && (0 <? buffer_size buffer) = false
                  <-> buffer_size buffer = 0 \/ size = 1).
  { rewrite andb_false_iff, !Z.ltb_ge. unfold to_size_t, size_t_modulus in *.
    destruct (decide (size = 0)) as [-> | Hne].
    - change ((0 - 1) mod 2 ^ 64) with (2 ^ 64 - 1). lia.
    - rewrite Z.mod_small by lia. lia. }
  split_conj.
  - intros Hzero%Hcond. unfold snd_input_buffer_gets.
    rewrite (proj2 (as_buffer_Ret _ _) Hpriv). simpl.
    rewrite gets_loop_exit by done. simpl.
    rewrite Z.eqb_refl. by rewrite with_buffer_id.
  - intros input' w' Hgets.
    destruct (snd_input_buffer_gets_counts _ _ _ _ _ _ _ _ Hpriv Hrange Hgets)
      as (k & _ & _ & _ & Hzero & Hpos).
    destruct (decide (k = O)) as [-> | Hk].
    + destruct (Hzero eq_refl) as (_ & -> & -> & Hc). by apply Hcond in Hc.
    + destruct (Hpos Hk) as (Hr & Hstr & _).
      destruct str; [done | discriminate Hr].
  - intros r input' w' Hgets.
    destruct (snd_input_buffer_gets_counts _ _ _ _ _ _ _ _ Hpriv Hrange Hgets)
      as (k & _ & -> & _ & Hzero & Hpos).
    unfold remaining. rewrite Hpriv. simpl.
    destruct (decide (k = O)) as [-> | Hk].
    + destruct (Hzero eq_refl) as (-> & _). split; [lia | done].
    + destruct (Hpos Hk) as (-> & Hstr & _). split; [| lia].
      by destruct str.
Qed.

(** With two unread bytes and [size = 1] the result is null. *)
Lemma gets_null_changes_nothing_witness :
  input_private_data (buffer_handle 3 2 0) =
    Private_buffer {| buffer_buf := Ptr 3 0; buffer_ptr := Ptr 3 0; buffer_size := 2 |} /\
  0 <= 2 < size_t_modulus /\
  0 <= 1 < size_t_modulus /\
  snd_input_buffer_gets (buffer_handle 3 2 0) (Ptr 2 0) 1 world_ab_open =
    Ret (NULL, buffer_handle 3 2 0, world_ab_open).
Proof.
  assert (H2 : 0 <= 2 < size_t_modulus) by (unfold size_t_modulus; lia).
  assert (H1 : 0 <= 1 < size_t_modulus) by (unfold size_t_modulus; lia).
  split; [reflexivity |]. split; [exact H2 |]. split; [exact H1 |].
  apply (gets_null_changes_nothing (buffer_handle 3 2 0)
           {| buffer_buf := Ptr 3 0; buffer_ptr := Ptr 3 0; buffer_size := 2 |}
           (Ptr 2 0) 1 world_ab_open eq_refl H2 H1).
  right. reflexivity.
Defined.

(** ** The pointer returned by [snd_input_buffer_gets] *)

(** A result of [snd_input_buffer_gets] that is not null is the destination
    advanced by the number of bytes copied, never the destination. *)
Lemma snd_input_buffer_gets_result input buffer str size w r input' w' :
  input_private_data input = Private_buffer buffer ->
  0 <= buffer_size buffer < size_t_modulus ->
  snd_input_buffer_gets input str size w = Ret (r, input', w') ->
  r <> NULL ->
  r <> str /\ exists k : Z, 0 < k /\ r = ptr_add str k.
Proof.
  intros Hpriv Hrange Hgets Hr.
  destruct (snd_input_buffer_gets_counts _ _ _ _ _ _ _ _ Hpriv Hrange Hgets)
    as (k & _ & _ & _ & Hzero & Hpos).
  destruct (decide (k = O)) as [-> | Hk].
  - by destruct (Hzero eq_refl) as (-> & _).
  - destruct (Hpos Hk) as (-> & Hstr & _). split.
    + destruct str as [| b o]; [done |]. simpl. intros [=]. lia.
    + exists (Z.of_nat k). split; [lia | done].
Qed.

(** C2, at the input where the code departs from it: reading "ab" into a
    destination [str] of 4 bytes copies two bytes, and the result is
    [str + 2], the address of the terminator, not [str]. *)
Theorem gets_returns_end_of_copy :
  snd_input_buffer_gets (buffer_handle 3 2 0) (Ptr 2 0) 4 world_ab_open =
    Ret (Ptr 2 2, buffer_handle 3 2 2, world_ab_read) /\
  Ptr 2 2 <> Ptr 2 0.
Proof. split; [vm_compute; reflexivity | discriminate]. Qed.

(** ** [snd_input_buffer_gets] with [size = 0] *)

(** C3, at the input where the code departs from it: with [size = 0] the
    decrement of [size] wraps around, the loop copies the two unread bytes and
    the terminator is stored after them: three bytes are written into a
    destination said to hold none.  When the destination really holds no
    byte (the end of block 2) the first store is out of bounds. *)
Theorem gets_size_0_writes :
  to_size_t (0 - 1) = 2 ^ 64 - 1 /\
  snd_input_buffer_gets (buffer_handle 3 2 0) (Ptr 2 0) 0 world_ab_open =
    Ret (Ptr 2 2, buffer_handle 3 2 2, world_ab_read) /\
  heap world_ab_open !! 2%nat = Some [x2e; x2e; x2e; x2e] /\
  heap world_ab_read !! 2%nat = Some [x61; x62; x00; x2e] /\
  snd_input_buffer_gets (buffer_handle 3 2 0) (Ptr 2 4) 0 world_ab_open = Undef.
Proof. repeat split; vm_compute; reflexivity. Qed.

(** ** The dispatch layer: closing a stream handle, scanning a buffer handle *)

Section Dispatch.

Context {libc : stdio_library}.

(** Closing a stream-backed handle closes its stream and returns 0, whatever
    the close flag stored in the handle. *)
Lemma snd_input_close_stdio (close : Z) (f : FILE) (w : world) :
  f ∈ streams w ->
  snd_input_close (stdio_input {| stdio_close := close; stdio_fp := Some f |}) w =
  Ret (0, {| heap := heap w; streams := streams w ∖ {[f]}; allocs := allocs w |}).
Proof.
  intros Hopen. unfold snd_input_close. simpl.
  unfold snd_input_stdio_close. simpl.
  by rewrite bool_decide_eq_true_2.
Qed.

(** C1, at the input where the code departs from it: the open stream 3 is
    attached with the close flag 0; [snd_input_close] on the handle returns 0,
    and the stream 3 of the caller is closed. *)
Theorem close_closes_stream_attached_without_flag :
  snd_input_stdio_attach (Ptr 0 0) (Some 3%nat) 0 world_stream =
    Ret (0, Some (stdio_input {| stdio_close := 0; stdio_fp := Some 3%nat |}),
         world_stream_attached) /\
  3%nat ∈ streams world_stream_attached /\
  exists w : world,
    snd_input_close (stdio_input {| stdio_close := 0; stdio_fp := Some 3%nat |})
      world_stream_attached = Ret (0, w) /\
    3%nat ∉ streams w.
Proof.
  split; [vm_compute; reflexivity |].
  split; [simpl; set_solver |].
  eexists. split; [apply snd_input_close_stdio; simpl; set_solver |].
  simpl. intros [_ Hn]%elem_of_difference. apply Hn. by apply elem_of_singleton.
Qed.

(** On a buffer-backed handle the public operations are those of the buffer
    backend. *)
Lemma dispatch_buffer (buffer : snd_input_buffer_t) :
  snd_input_gets (buffer_input buffer) = snd_input_buffer_gets (buffer_input buffer) /\
  snd_input_getc (buffer_input buffer) = snd_input_buffer_getc (buffer_input buffer) /\
  snd_input_ungetc (buffer_input buffer) =
    snd_input_buffer_ungetc (buffer_input buffer) /\
  snd_input_scanf (buffer_input buffer) = snd_input_buffer_scanf (buffer_input buffer).
Proof. done. Qed.

(** C4: on a buffer-backed handle, whatever the format and the arguments,
    [snd_input_buffer_scanf] and [snd_input_scanf], which forwards to it, end
    in the failed assertion; they return nothing, neither scanned data nor a
    handle whose cursor did not move. *)
Theorem buffer_scanf_fails_assertion (buffer : snd_input_buffer_t)
    (format : list byte) (args : list pointer) (w : world) :
  snd_input_buffer_scanf (buffer_input buffer) format args w = Aborted /\
  snd_input_scanf (buffer_input buffer) format args w = Aborted /\
  forall r, snd_input_scanf (buffer_input buffer) format args w <> Ret r.
Proof. repeat split; done. Qed.

End Dispatch.

(** ** Copies of bytes, and what [snd_input_buffer_open] builds *)

Lemma load_weaken (w w' : world) (p : pointer) (c : byte) :
  heap w ⊆ heap w' -> load w p = Ret c -> load w' p = Ret c.
Proof.
  intros Hsub (b & o & l & -> & Hb & Ho)%load_Ret_inv.
  eapply load_Ptr; [| done]. by eapply lookup_weaken.
Qed.

Lemma load_bytes_weaken (w w' : world) (p : pointer) (n : nat) (bs : list byte) :
  heap w ⊆ heap w' -> load_bytes w p n = Ret bs -> load_bytes w' p n = Ret bs.
Proof.
  intros Hsub. revert p bs. induction n as [| n IH]; intros p bs; simpl; [done |].
  destruct (load w p) as [c | |] eqn:Hc; try done. simpl.
  rewrite (load_weaken _ _ _ _ Hsub Hc). simpl.
  destruct (load_bytes w (ptr_add p 1) n) as [cs | |] eqn:Hcs; try done. simpl.
  by rewrite (IH _ _ Hcs).
Qed.

Lemma load_bytes_length (w : world) (p : pointer) (n : nat) (bs : list byte) :
  load_bytes w p n = Ret bs -> length bs = n.
Proof.
  revert p bs. induction n as [| n IH]; intros p bs; simpl.
  - by intros [= <-].
  - destruct (load w p) as [c | |]; try done. simpl.
    destruct (load_bytes w (ptr_add p 1) n) as [cs | |] eqn:Hcs; try done. simpl.
    intros [= <-]. simpl. by rewrite (IH _ _ Hcs).
Qed.

Lemma store_bytes_Ptr (w : world) (b : block) (o : nat) (l cs : list byte) :
  heap w !! b = Some l -> (o + length cs <= length l)%nat ->
  store_bytes w (Ptr b (Z.of_nat o)) cs =
  Ret (set_heap w (<[b := list_inserts o cs l]> (heap w))).
Proof.
  revert w o l. induction cs as [| c cs IH]; intros w o l Hb Hlen.
  - simpl. by rewrite insert_id, set_heap_id.
  - simpl in Hlen. cbn [store_bytes ptr_add].
    rewrite (store_Ptr _ _ _ l) by (done || lia). simpl.
    replace (Z.of_nat o + 1) with (Z.of_nat (S o)) by lia.
    rewrite (IH _ _ (<[o := c]> l)).
    + simpl. rewrite insert_insert_eq, set_heap_set_heap.
      by rewrite list_insert_inserts_lt by lia.
    + simpl. by rewrite lookup_insert_eq.
    + rewrite length_insert. lia.
Qed.

Lemma next_alloc_heap (w : world) :
  heap (next_alloc w).2 = heap w /\ streams (next_alloc w).2 = streams w.
Proof. unfold next_alloc. by destruct (allocs w). Qed.

Lemma snd_input_buffer_open_Ret inputp src size w input w' :
  snd_input_buffer_open inputp src size w = Ret (0, Some input, w') ->
  exists (n : Z) (b : block) (bs : list byte) (w1 : world),
    0 <= n < INT_MAX /\
    (0 <= size -> n = size) /\
    heap w !! b = None /\
    heap w1 = <[b := replicate (Z.to_nat (n + 1)) nul]> (heap w) /\
    load_bytes w1 src (Z.to_nat n) = Ret bs /\
    input = buffer_input {| buffer_buf := Ptr b 0; buffer_ptr := Ptr b 0;
                            buffer_size := n |} /\
    heap w' = <[b := bs ++ [nul]]> (heap w) /\
    streams w' = streams w.
Proof.
  unfold snd_input_buffer_open, calloc_struct.
  destruct (assert _); try done. simpl.
  destruct (next_alloc w) as [ok1 wa] eqn:Ha.
  pose proof (next_alloc_heap w) as [Hha Hsa]. rewrite Ha in Hha, Hsa. simpl in *.
  destruct ok1; simpl; [| by intros [=]].
  destruct (next_alloc wa) as [ok2 wb] eqn:Hb.
  pose proof (next_alloc_heap wa) as [Hhb Hsb]. rewrite Hb in Hhb, Hsb. simpl in *.
  destruct ok2; simpl; [| by intros [=]].
  destruct (if size <? 0 then _ else _) as [n | |] eqn:Hn; try done. simpl.
  destruct (Z.leb_spec INT_MAX n) as [| Hmax]; [done |].
  unfold malloc.
  destruct (next_alloc wb) as [ok3 wc] eqn:Hc.
  pose proof (next_alloc_heap wb) as [Hhc Hsc]. rewrite Hc in Hhc, Hsc. simpl in *.
  destruct ok3; simpl; [| by intros [=]].
  set (b := fresh (dom (heap wc))).
  assert (Hfresh : heap w !! b = None).
  { apply not_elem_of_dom. rewrite <- Hha, <- Hhb, <- Hhc. apply is_fresh. }
  unfold memcpy.
  destruct (load_bytes _ src _) as [bs | |] eqn:Hload; try done. simpl.
  destruct (store_bytes _ _ bs) as [w3 | |] eqn:Hcopy; try done. simpl.
  simpl ptr_add.
  destruct (store w3 (Ptr b (0 + n)) nul) as [w4 | |] eqn:Hnul; try done. simpl.
  intros [= <- <-].
  apply store_Ret_inv in Hnul as (b' & o & l & [= <- Ho] & Hl & Hlen & ->).
  assert (Hn0 : 0 <= n) by lia.
  assert (Hsmall : to_size_t n = n /\ to_size_t (n + 1) = n + 1).
  { unfold to_size_t, size_t_modulus, INT_MAX in *.
    split; apply Z.mod_small; lia. }
  destruct Hsmall as [Hs1 Hs2]. rewrite Hs1, Hs2 in *.
  pose proof (load_bytes_length _ _ _ _ Hload) as Hbs.
  change (Ptr b 0) with (Ptr b (Z.of_nat 0)) in Hcopy.
  rewrite (store_bytes_Ptr _ _ _ (replicate (Z.to_nat (n + 1)) nul)) in Hcopy.
  2:{ simpl. by rewrite lookup_insert_eq. }
  2:{ rewrite length_replicate. lia. }
  injection Hcopy as <-. simpl in Hl.
  rewrite insert_insert_eq, lookup_insert_eq in Hl. injection Hl as <-.
  exists n, b, bs. eexists.
  split_conj; try done.
  - intros Hsize. destruct (Z.ltb_spec size 0); [lia |]. by injection Hn.
  - simpl. by rewrite Hhc, Hhb, Hha.
  - simpl. rewrite !insert_insert_eq, Hhc, Hhb, Hha. f_equal.
    replace (Z.to_nat (n + 1)) with (length bs + 1)%nat by lia.
    rewrite replicate_add. simpl.
    rewrite (list_inserts_0_r bs (replicate (length bs) nul) [nul])
      by by rewrite length_replicate.
    apply list_insert_id. replace o with (length bs + 0)%nat by lia.
    by rewrite lookup_app_r, Nat.add_0_r, Nat.sub_diag by lia.
  - simpl. congruence.
Qed.


(** ** The invariant is kept by every operation *)

Lemma getc_invariant n input w c input' w' :
  buffer_invariant n input w ->
  snd_input_buffer_getc input w = Ret (c, input', w') ->
  buffer_invariant n input' w'.
Proof.
  intros (buffer & b & cursor & array & Hpriv & Hbuf & Hptr & Harr & Hlen & Hn &
          Hsize & Hcur & Hsum) Hgetc.
  unfold snd_input_buffer_getc in Hgetc.
  rewrite (proj2 (as_buffer_Ret _ _) Hpriv) in Hgetc. simpl in Hgetc.
  destruct (Z.eqb_spec (buffer_size buffer) 0) as [Hz | Hnz].
  - injection Hgetc as <- <- <-. by exists buffer, b, cursor, array.
  - destruct (load w (buffer_ptr buffer)) as [c' | |]; try done.
    injection Hgetc as <- <- <-.
    pose proof INT_MAX_size_t.
    rewrite to_size_t_small by lia. rewrite Hptr. simpl.
    eexists _, b, (cursor + 1), array.
    split_conj; try done; simpl; lia.
Qed.

Lemma ungetc_invariant n input w c r input' w' :
  buffer_invariant n input w ->
  snd_input_buffer_ungetc input c w = Ret (r, input', w') ->
  buffer_invariant n input' w'.
Proof.
  intros (buffer & b & cursor & array & Hpriv & Hbuf & Hptr & Harr & Hlen & Hn &
          Hsize & Hcur & Hsum) Hungetc.
  unfold snd_input_buffer_ungetc in Hungetc.
  rewrite (proj2 (as_buffer_Ret _ _) Hpriv) in Hungetc. simpl in Hungetc.
  case_bool_decide as Hstart.
  - injection Hungetc as <- <- <-. by exists buffer, b, cursor, array.
  - rewrite Hptr, Hbuf in Hstart. assert (cursor <> 0) by congruence.
    destruct (load w _) as [c' | |]; try done. simpl in Hungetc.
    destruct (assert _); try done. simpl in Hungetc.
    injection Hungetc as <- <- <-.
    pose proof INT_MAX_size_t.
    rewrite to_size_t_small by lia. rewrite Hptr. simpl.
    eexists _, b, (cursor + -1), array.
    split_conj; try done; simpl; lia.
Qed.

Lemma gets_invariant n input str size w r input' w' :
  buffer_invariant n input w ->
  snd_input_buffer_gets input str size w = Ret (r, input', w') ->
  buffer_invariant n input' w'.
Proof.
  intros (buffer & b & cursor & array & Hpriv & Hbuf & Hptr & Harr & Hlen & Hn &
          Hsize & Hcur & Hsum) Hgets.
  pose proof INT_MAX_size_t.
  apply (snd_input_buffer_gets_counts _ buffer) in Hgets
    as (k & Hk & -> & (_ & _ & Hshape) & _); [| done | lia].
  specialize (Hshape b). rewrite Harr in Hshape. simpl in Hshape.
  destruct (heap w' !! b) as [array' |] eqn:Harr'; [| done].
  injection Hshape as Hlen'.
  rewrite Hptr. simpl.
  eexists _, b, (cursor + Z.of_nat k), array'.
  split_conj; try done; simpl; lia.
Qed.

Lemma run_operations_invariant n ops input w input' w' :
  buffer_invariant n input w ->
  run_operations ops input w = Ret (input', w') ->
  buffer_invariant n input' w'.
Proof.
  revert input w. induction ops as [| op ops IH]; intros input w Hinv Hrun.
  - by injection Hrun as <- <-.
  - cbn [run_operations] in Hrun.
    destruct (run_operation op input w) as [[input1 w1] | |] eqn:Hop; try done.
    simpl in Hrun. apply (IH input1 w1); [| done].
    destruct op as [| c | str size]; cbn [run_operation] in Hop.
    + destruct (snd_input_buffer_getc input w) as [[[c i] w0] | |] eqn:Hc;
        try done.
      injection Hop as <- <-. by eapply getc_invariant.
    + destruct (snd_input_buffer_ungetc input c w) as [[[r i] w0] | |] eqn:Hc;
        try done.
      injection Hop as <- <-. by eapply ungetc_invariant.
    + destruct (snd_input_buffer_gets input str size w) as [[[r i] w0] | |] eqn:Hc;
        try done.
      injection Hop as <- <-. by eapply gets_invariant.
Qed.

Lemma open_invariant inputp src size w input w' :
  snd_input_buffer_open inputp src size w = Ret (0, Some input, w') ->
  (0 <= size -> remaining input = size) /\
  buffer_invariant (remaining input) input w'.
Proof.
  intros (n & b & bs & w1 & Hn & Hsize & _ & _ & Hload & -> & Hheap & _)
    %snd_input_buffer_open_Ret.
  apply load_bytes_length in Hload.
  split; [done |].
  eexists _, b, 0, (bs ++ [nul]). simpl. unfold remaining. simpl.
  split_conj; try done;
    rewrite ?Hheap, ?lookup_insert_eq, ?length_app; simpl; (done || lia).
Qed.

(** C9: from the state built by [snd_input_buffer_open], after any sequence of
    read-char, push-back-char and read-line operations that returns, the
    invariant holds for the original size (the remaining count at opening):
    [0 <= remaining <= allocated size - 1], the cursor is within
    [0, original size] of the array and [cursor + remaining] is the original
    size. *)
Theorem buffer_invariant_reachable (inputp src : pointer) (size : Z) (w : world)
    (input : snd_input_t) (w1 : world) (ops : list operation)
    (input' : snd_input_t) (w' : world) :
  snd_input_buffer_open inputp src size w = Ret (0, Some input, w1) ->
  run_operations ops input w1 = Ret (input', w') ->
  (0 <= size -> remaining input = size) /\
  buffer_invariant (remaining input) input' w'.
Proof.
  intros [Hsize Hinv]%open_invariant Hrun. split; [done |].
  by eapply run_operations_invariant.
Qed.

(** "ab" is read as a line, 'b' is pushed back and read again, then the end
    of the input is met. *)
Lemma buffer_invariant_reachable_witness :
  snd_input_buffer_open (Ptr 0 0) (Ptr 1 0) 2 world_ab =
    Ret (0, Some (buffer_handle 3 2 0), world_ab_open) /\
  run_operations [Read_line (Ptr 2 0) 4; Push_back_char 98; Read_char; Read_char]
    (buffer_handle 3 2 0) world_ab_open = Ret (buffer_handle 3 2 2, world_ab_read) /\
  buffer_invariant 2 (buffer_handle 3 2 2) world_ab_read.
Proof.
  assert (Hrun : run_operations
                   [Read_line (Ptr 2 0) 4; Push_back_char 98; Read_char; Read_char]
                   (buffer_handle 3 2 0) world_ab_open =
                 Ret (buffer_handle 3 2 2, world_ab_read))
    by (vm_compute; reflexivity).
  assert (Hopen : snd_input_buffer_open (Ptr 0 0) (Ptr 1 0) 2 world_ab =
                  Ret (0, Some (buffer_handle 3 2 0), world_ab_open))
    by (vm_compute; reflexivity).
  split; [exact Hopen |]. split; [exact Hrun |].
  exact (proj2 (buffer_invariant_reachable _ _ _ _ _ _ _ _ _ Hopen Hrun)).
Defined.

(** ** Reading a character and pushing it back *)

(** C7: in a state satisfying the invariant, when [snd_input_buffer_getc]
    returned a character [c] that is not EOF, [snd_input_buffer_ungetc] of [c]
    returns [c] and restores the state before the read, so that the next
    [snd_input_buffer_getc] returns [c] again and the pair of calls ends in
    the state (cursor, remaining count, world) it started from. *)
Theorem getc_ungetc_getc (n : Z) (input : snd_input_t) (w : world) (c : Z)
    (input1 : snd_input_t) (w1 : world) :
  buffer_invariant n input w ->
  snd_input_buffer_getc input w = Ret (c, input1, w1) ->
  c <> EOF ->
  snd_input_buffer_ungetc input1 c w1 = Ret (c, input, w) /\
  ('(_, input2, w2) ← snd_input_buffer_ungetc input1 c w1;
   snd_input_buffer_getc input2 w2) = Ret (c, input1, w1).
Proof.
  intros (buffer & b & cursor & array & Hpriv & Hbuf & Hptr & Harr & Hlen & Hn &
          Hsize & Hcur & Hsum) Hgetc Hc.
  assert (Hunget : snd_input_buffer_ungetc input1 c w1 = Ret (c, input, w)).
  { destruct buffer as [bbuf bptr bsize]. simpl in *. subst bbuf bptr.
    unfold snd_input_buffer_getc in Hgetc.
    rewrite (proj2 (as_buffer_Ret _ _) Hpriv) in Hgetc. simpl in Hgetc.
    destruct (Z.eqb_spec bsize 0) as [Hz | Hnz].
    { by injection Hgetc as <- <- <-. }
    destruct (load w (Ptr b cursor)) as [c' | |] eqn:Hload; try done.
    injection Hgetc as <- <- <-.
    pose proof INT_MAX_size_t.
    unfold snd_input_buffer_ungetc. rewrite as_buffer_with_buffer. simpl.
    rewrite bool_decide_eq_false_2 by (intros [=]; lia).
    replace (cursor + 1 + -1) with cursor by lia.
    rewrite Hload. simpl.
    rewrite to_uchar_byte, Z.eqb_refl. simpl.
    rewrite (to_size_t_small (bsize - 1)) by lia.
    rewrite to_size_t_small by lia.
    replace (bsize - 1 + 1) with bsize by lia.
    by rewrite with_buffer_with_buffer, with_buffer_id. }
  split; [done |]. by rewrite Hunget.
Qed.

(** 'a' is read from "ab", pushed back and read again. *)
Lemma getc_ungetc_getc_witness :
  buffer_invariant 2 (buffer_handle 3 2 0) world_ab_open /\
  snd_input_buffer_getc (buffer_handle 3 2 0) world_ab_open =
    Ret (97, buffer_handle 3 2 1, world_ab_open) /\
  97 <> EOF /\
  snd_input_buffer_ungetc (buffer_handle 3 2 1) 97 world_ab_open =
    Ret (97, buffer_handle 3 2 0, world_ab_open) /\
  ('(_, input2, w2) ← snd_input_buffer_ungetc (buffer_handle 3 2 1) 97 world_ab_open;
   snd_input_buffer_getc input2 w2) = Ret (97, buffer_handle 3 2 1, world_ab_open).
Proof.
  assert (Hinv : buffer_invariant 2 (buffer_handle 3 2 0) world_ab_open).
  { exists {| buffer_buf := Ptr 3 0; buffer_ptr := Ptr 3 0; buffer_size := 2 |},
      3%nat, 0, [x61; x62; x00].
    split_conj; try reflexivity; try (vm_compute; reflexivity);
      split; discriminate. }
  assert (Hgetc : snd_input_buffer_getc (buffer_handle 3 2 0) world_ab_open =
                  Ret (97, buffer_handle 3 2 1, world_ab_open))
    by (vm_compute; reflexivity).
  assert (Hc : 97 <> EOF) by discriminate.
  split; [exact Hinv |]. split; [exact Hgetc |]. split; [exact Hc |].
  exact (getc_ungetc_getc 2 _ _ 97 _ _ Hinv Hgetc Hc).
Defined.

(** ** Reading a buffer character by character *)

(** One call with something left to read, one call with nothing left. *)
Lemma getc_byte (buf : pointer) (b : block) (o : nat) (size : Z) (array : list byte)
    (c : byte) (w : world) :
  heap w !! b = Some array ->
  array !! o = Some c ->
  0 < size < size_t_modulus ->
  snd_input_buffer_getc
    (buffer_input {| buffer_buf := buf; buffer_ptr := Ptr b (Z.of_nat o);
                     buffer_size := size |}) w =
  Ret (byte_to_int c,
       buffer_input {| buffer_buf := buf; buffer_ptr := Ptr b (Z.of_nat (S o));
                       buffer_size := size - 1 |}, w).
Proof.
  intros Harr Hc Hsize. unfold snd_input_buffer_getc. simpl.
  destruct (Z.eqb_spec size 0) as [| _]; [lia |].
  rewrite (load_Ptr _ _ _ _ _ Harr Hc). simpl.
  rewrite to_size_t_small by lia.
  by replace (Z.of_nat o + 1) with (Z.of_nat (S o)) by lia.
Qed.

Lemma getc_nothing_left (input : snd_input_t) (buffer : snd_input_buffer_t) (w : world) :
  input_private_data input = Private_buffer buffer ->
  buffer_size buffer = 0 ->
  snd_input_buffer_getc input w = Ret (EOF, input, w).
Proof.
  intros Hpriv Hsize. unfold snd_input_buffer_getc.
  rewrite (proj2 (as_buffer_Ret _ _) Hpriv). simpl. by rewrite Hsize.
Qed.

(** With the cursor at offset [o] of a block that holds [bs] from there on,
    and [bs] as long as the remaining count, as many calls as bytes return
    them in order and leave nothing to read. *)
Lemma getc_times_block (b : block) (array bs rest : list byte) (w : world)
    (buf : pointer) (o : nat) :
  heap w !! b = Some array ->
  drop o array = bs ++ rest ->
  Z.of_nat (length bs) < size_t_modulus ->
  getc_times (length bs)
    (buffer_input {| buffer_buf := buf; buffer_ptr := Ptr b (Z.of_nat o);
                     buffer_size := Z.of_nat (length bs) |}) w =
  Ret (byte_to_int <$> bs,
       buffer_input {| buffer_buf := buf;
                       buffer_ptr := Ptr b (Z.of_nat (o + length bs));
                       buffer_size := 0 |}, w).
Proof.
  intros Harr. revert o. induction bs as [| c bs IH]; intros o Hdrop Hlen.
  - simpl. by rewrite Nat.add_0_r.
  - cbn [getc_times length]. simpl in Hlen.
    assert (Hc : array !! o = Some c).
    { rewrite <- (Nat.add_0_r o), <- lookup_drop, Hdrop. done. }
    rewrite (getc_byte _ _ _ _ _ _ _ Harr Hc) by lia.
    replace (Z.of_nat (S (length bs)) - 1) with (Z.of_nat (length bs)) by lia.
    cbn [mbind outcome_bind].
    rewrite (IH (S o)); [| | lia].
    + simpl. by rewrite Nat.add_succ_r.
    + by rewrite <- Nat.add_1_r, <- drop_drop, Hdrop.
Qed.

(** C6: when [snd_input_buffer_open] succeeds on the [N] bytes [bs] found at
    the source, [N] successive calls of [snd_input_buffer_getc] return the
    values of these bytes in order, none of them negative, and the next call
    returns EOF. *)
Theorem open_then_getc_reads_all (inputp src : pointer) (bs : list byte) (w : world)
    (input : snd_input_t) (w1 : world) :
  load_bytes w src (length bs) = Ret bs ->
  snd_input_buffer_open inputp src (Z.of_nat (length bs)) w = Ret (0, Some input, w1) ->
  exists input_end : snd_input_t,
    getc_times (length bs) input w1 = Ret (byte_to_int <$> bs, input_end, w1) /\
    Forall (fun c => 0 <= c <= 255) (byte_to_int <$> bs) /\
    snd_input_buffer_getc input_end w1 = Ret (EOF, input_end, w1).
Proof.
  intros Hsrc (n & b & bs' & w2 & Hn & Hsize & Hfresh & Hheap2 & Hload & -> &
               Hheap1 & _)%snd_input_buffer_open_Ret.
  assert (n = Z.of_nat (length bs)) as -> by (apply Hsize; lia).
  rewrite Nat2Z.id in Hload.
  assert (bs' = bs) as ->.
  { eapply (load_bytes_weaken w w2) in Hsrc; [congruence |].
    rewrite Hheap2. by apply insert_subseteq. }
  pose proof INT_MAX_size_t.
  eexists. split_conj.
  - apply (getc_times_block b (bs ++ [nul]) bs [nul] w1 (Ptr b 0) 0).
    + by rewrite Hheap1, lookup_insert_eq.
    + done.
    + lia.
  - apply Forall_fmap, Forall_forall. intros c _. apply byte_to_int_range.
  - by eapply getc_nothing_left.
Qed.

(** The two bytes of "ab" are read, then EOF. *)
Lemma open_then_getc_reads_all_witness :
  load_bytes world_ab (Ptr 1 0) 2 = Ret [x61; x62] /\
  snd_input_buffer_open (Ptr 0 0) (Ptr 1 0) 2 world_ab =
    Ret (0, Some (buffer_handle 3 2 0), world_ab_open) /\
  exists input_end : snd_input_t,
    getc_times 2 (buffer_handle 3 2 0) world_ab_open =
      Ret ([97; 98], input_end, world_ab_open) /\
    Forall (fun c => 0 <= c <= 255) [97; 98] /\
    snd_input_buffer_getc input_end world_ab_open = Ret (EOF, input_end, world_ab_open).
Proof.
  assert (Hsrc : load_bytes world_ab (Ptr 1 0) (length [x61; x62]) = Ret [x61; x62])
    by (vm_compute; reflexivity).
  assert (Hopen : snd_input_buffer_open (Ptr 0 0) (Ptr 1 0)
                    (Z.of_nat (length [x61; x62])) world_ab =
                  Ret (0, Some (buffer_handle 3 2 0), world_ab_open))
    by (vm_compute; reflexivity).
  split; [exact Hsrc |]. split; [exact Hopen |].
  exact (open_then_getc_reads_all (Ptr 0 0) (Ptr 1 0) [x61; x62] world_ab
           (buffer_handle 3 2 0) world_ab_open Hsrc Hopen).
Defined.

(** ** Lines *)

Lemma byte_eqb_refl (c : byte) : Byte.eqb c c = true.
Proof. by apply Byte.byte_dec_lb. Qed.

Lemma newline_test (c : byte) :
  (byte_to_int c =? byte_to_int newline) = Byte.eqb c newline.
Proof.
  destruct (Byte.eqb c newline) eqn:E.
  - apply Byte.byte_dec_bl in E as ->. apply Z.eqb_refl.
  - apply Z.eqb_neq. intros ->%byte_to_int_inj. by rewrite byte_eqb_refl in E.
Qed.

Lemma line_prefix_length (cap : Z) (src : list byte) :
  0 <= cap ->
  Z.of_nat (length (line_prefix cap src)) <= cap /\
  (length (line_prefix cap src) <= length src)%nat.
Proof.
  revert cap. induction src as [| c src IH]; intros cap Hcap; simpl; [lia |].
  destruct (Z.leb_spec cap 0); simpl; [lia |].
  destruct (Byte.eqb c newline); simpl; [lia |].
  destruct (IH (cap - 1)); lia.
Qed.

Lemma line_prefix_take (cap : Z) (src : list byte) :
  line_prefix cap src = take (length (line_prefix cap src)) src.
Proof.
  revert cap. induction src as [| c src IH]; intros cap; simpl; [done |].
  destruct (Z.leb_spec cap 0); simpl; [done |].
  destruct (Byte.eqb c newline); simpl; [by rewrite take_0 |].
  by rewrite <- IH.
Qed.

Lemma line_prefix_no_newline (cap : Z) (src : list byte) (i : nat) :
  (S i < length (line_prefix cap src))%nat -> src !! i <> Some newline.
Proof.
  revert cap i. induction src as [| c src IH]; intros cap i; simpl; [lia |].
  destruct (Z.leb_spec cap 0); simpl; [lia |].
  destruct (Byte.eqb c newline) eqn:E; simpl; [lia |].
  intros Hi. destruct i as [| i]; simpl.
  - intros [= ->]. by rewrite byte_eqb_refl in E.
  - apply (IH (cap - 1)). lia.
Qed.

Lemma line_prefix_stop (cap : Z) (src : list byte) :
  0 <= cap ->
  Z.of_nat (length (line_prefix cap src)) = cap \/
  length (line_prefix cap src) = length src \/
  exists i : nat, length (line_prefix cap src) = S i /\ src !! i = Some newline.
Proof.
  revert cap. induction src as [| c src IH]; intros cap Hcap; simpl; [auto |].
  destruct (Z.leb_spec cap 0); simpl; [left; lia |].
  destruct (Byte.eqb c newline) eqn:E; simpl.
  - right. right. exists O. apply Byte.byte_dec_bl in E as ->. done.
  - destruct (IH (cap - 1)) as [Hk | [Hk | (i & Hk & Hi)]]; [lia | | |].
    + left. lia.
    + right. left. lia.
    + right. right. exists (S i). by rewrite Hk.
Qed.

(** The loop, when the destination is in another block than the array of the
    handle and has room for the line: it copies the line of the
    specification. *)
Lemma gets_loop_line (b d : block) (array rest : list byte) (buf : pointer)
    (remaining0 : Z) (src : list byte) :
  forall (o s : nat) (size : Z) (dest : list byte) (w : world),
    heap w !! b = Some array ->
    heap w !! d = Some dest ->
    d <> b ->
    drop o array = src ++ rest ->
    Z.of_nat (length src) < size_t_modulus ->
    (s + length (line_prefix (to_size_t (size - 1)) src) <= length dest)%nat ->
    gets_loop {| buffer_buf := buf; buffer_ptr := Ptr b (Z.of_nat o);
                 buffer_size := remaining0 |}
      (Ptr d (Z.of_nat s)) size (Z.of_nat (length src)) w =
    let line := line_prefix (to_size_t (size - 1)) src in
    Ret ({| buffer_buf := buf;
            buffer_ptr := Ptr b (Z.of_nat (o + length line));
            buffer_size := remaining0 |},
         Ptr d (Z.of_nat (s + length line)),
         Z.of_nat (length src) - Z.of_nat (length line),
         set_heap w (<[d := list_inserts s line dest]> (heap w))).
Proof.
  induction src as [| c src IH]; intros o s size dest w Harr Hdest Hne Hdrop Hlen Hroom.
  - rewrite gets_loop_exit by (apply andb_false_iff; right; done).
    simpl. by rewrite !Nat.add_0_r, insert_id, set_heap_id.
  - assert (Hcap : 0 <= to_size_t (size - 1) < size_t_modulus)
      by (apply Z.mod_pos_bound; done).
    cbn [line_prefix] in *.
    destruct (Z.leb_spec (to_size_t (size - 1)) 0) as [Hle | Hgt].
    { rewrite gets_loop_exit
        by (apply andb_false_iff; left; apply Z.ltb_ge; done).
      simpl. by rewrite !Nat.add_0_r, Z.sub_0_r, insert_id, set_heap_id. }
    assert (Hc : array !! o = Some c).
    { rewrite <- (Nat.add_0_r o), <- lookup_drop, Hdrop. done. }
    cbn [length] in Hlen |- *. rewrite Nat2Z.inj_succ in Hlen |- *.
    rewrite gets_loop_enter
      by (apply andb_true_intro; split; apply Z.ltb_lt; lia).
    cbn [buffer_ptr]. rewrite (load_Ptr _ _ _ _ _ Harr Hc).
    cbn [mbind outcome_bind set_buffer_ptr buffer_buf buffer_ptr buffer_size ptr_add].
    rewrite newline_test.
    assert (Hs : (s < length dest)%nat)
      by (destruct (Byte.eqb c newline); simpl in Hroom; lia).
    rewrite (store_Ptr _ _ _ _ _ Hdest Hs).
    cbn [mbind outcome_bind].
    rewrite (to_size_t_small (Z.succ (Z.of_nat (length src)) - 1)) by lia.
    replace (Z.of_nat o + 1) with (Z.of_nat (S o)) by lia.
    replace (Z.of_nat s + 1) with (Z.of_nat (S s)) by lia.
    replace (Z.succ (Z.of_nat (length src)) - 1) with (Z.of_nat (length src)) by lia.
    destruct (Byte.eqb c newline) eqn:E.
    + simpl. rewrite !Nat.add_1_r. do 3 f_equal. lia.
    + cbn [length] in Hroom.
      rewrite (IH (S o) (S s) _ (<[s := c]> dest)); try (done || lia).
      * rewrite (to_size_t_small (to_size_t (size - 1) - 1)) by lia.
        cbn zeta. cbn [length list_inserts]. rewrite !Nat.add_succ_r.
        cbn [set_heap heap streams allocs Nat.add].
        rewrite insert_insert_eq.
        rewrite list_insert_inserts_lt by lia.
        do 3 f_equal. lia.
      * simpl. by rewrite lookup_insert_ne.
      * simpl. by rewrite lookup_insert_eq.
      * by rewrite <- Nat.add_1_r, <- drop_drop, Hdrop.
      * rewrite length_insert.
        rewrite (to_size_t_small (to_size_t (size - 1) - 1)) by lia. lia.
Qed.

(** C5: with a capacity [size >= 2], a destination of [size] bytes outside
    the array of the handle and the unread bytes [src], the number [k] of
    bytes that [snd_input_buffer_gets] copies is the first point where a
    newline has just been copied, [size - 1] bytes are copied or no byte
    remains.  With [k = 0] (nothing was left to read) the result is null and
    nothing changes; otherwise the destination holds the first [k] unread
    bytes followed by a null byte, the cursor is [k] further, the remaining
    count [k] less, and the result is not null. *)
Theorem gets_reads_line (b d : block) (o s : nat) (array rest dest src : list byte)
    (buf : pointer) (size : Z) (w : world) :
  heap w !! b = Some array ->
  heap w !! d = Some dest ->
  d <> b ->
  drop o array = src ++ rest ->
  Z.of_nat (length src) < size_t_modulus ->
  2 <= size < size_t_modulus ->
  Z.of_nat s + size <= Z.of_nat (length dest) ->
  let input :=
    buffer_input {| buffer_buf := buf; buffer_ptr := Ptr b (Z.of_nat o);
                    buffer_size := Z.of_nat (length src) |} in
  exists k : nat,
    Z.of_nat k <= size - 1 /\
    (k <= length src)%nat /\
    (forall i : nat, (S i < k)%nat -> src !! i <> Some newline) /\
    (Z.of_nat k = size - 1 \/ k = length src \/
     exists i : nat, k = S i /\ src !! i = Some newline) /\
    (k = O <-> src = []) /\
    snd_input_buffer_gets input (Ptr d (Z.of_nat s)) size w =
      match k with
      | O => Ret (NULL, input, w)
      | S _ =>
          Ret (Ptr d (Z.of_nat (s + k)),
               buffer_input {| buffer_buf := buf;
                               buffer_ptr := Ptr b (Z.of_nat (o + k));
                               buffer_size := Z.of_nat (length src) - Z.of_nat k |},
               set_heap w (<[d := list_inserts s (take k src ++ [nul]) dest]> (heap w)))
      end.
Proof.
  intros Harr Hdest Hne Hdrop Hlen Hsize Hroom input.
  assert (Hcap : to_size_t (size - 1) = size - 1) by (apply to_size_t_small; lia).
  set (line := line_prefix (size - 1) src).
  destruct (line_prefix_length (size - 1) src) as [Hk1 Hk2]; [lia |].
  fold line in Hk1, Hk2.
  assert (Hzero : length line = O <-> src = []).
  { subst line. destruct src as [| c src]; simpl; [done |].
    destruct (Z.leb_spec (size - 1) 0); [lia |].
    by destruct (Byte.eqb c newline). }
  exists (length line). split_conj; try done.
  - intros i. apply line_prefix_no_newline.
  - apply line_prefix_stop. lia.
  - unfold snd_input_buffer_gets, input. rewrite as_buffer_buffer_input.
    cbn [mbind outcome_bind buffer_size].
    rewrite (gets_loop_line b d array rest buf _ src o s size dest w);
      try done; rewrite Hcap; fold line; [| lia].
    cbn zeta. cbn [mbind outcome_bind buffer_size set_buffer_size buffer_buf buffer_ptr].
    destruct (length line) as [| k'] eqn:Hk.
    + rewrite Z.sub_0_r, Z.eqb_refl.
      apply length_zero_iff_nil in Hk. rewrite Hk. simpl.
      by rewrite !Nat.add_0_r, insert_id, set_heap_id.
    + destruct (Z.eqb_spec (Z.of_nat (length src) - Z.of_nat (S k'))
                  (Z.of_nat (length src))) as [| _]; [lia |].
      rewrite (store_Ptr _ d _ (list_inserts s line dest)).
      * cbn [mbind outcome_bind set_heap heap streams allocs with_buffer
             set_private_data buffer_input input_type input_ops].
        rewrite insert_insert_eq. do 3 f_equal.
        rewrite list_inserts_app_l. simpl.
        subst line. rewrite <- Hk, <- line_prefix_take.
        by rewrite (Nat.add_comm s).
      * simpl. by rewrite lookup_insert_eq.
      * rewrite length_inserts. lia.
Qed.

(** "line1\nline2" is read into a destination of 32 bytes. *)
Lemma gets_reads_line_witness :
  heap world_lines_open !! 3%nat = Some text_lines /\
  heap world_lines_open !! 2%nat = Some (replicate 32 x2e) /\
  2%nat <> 3%nat /\
  drop 0 text_lines = text_lines_unread ++ [x00] /\
  11 < size_t_modulus /\
  2 <= 32 < size_t_modulus /\
  0 + 32 <= 32 /\
  exists k : nat,
    Z.of_nat k <= 32 - 1 /\
    (k <= 11)%nat /\
    (forall i : nat, (S i < k)%nat -> text_lines_unread !! i <> Some newline) /\
    (Z.of_nat k = 32 - 1 \/ k = 11%nat \/
     exists i : nat, k = S i /\ text_lines_unread !! i = Some newline) /\
    (k = O <-> text_lines_unread = []) /\
    snd_input_buffer_gets (buffer_handle 3 11 0) (Ptr 2 0) 32 world_lines_open =
      match k with
      | O => Ret (NULL, buffer_handle 3 11 0, world_lines_open)
      | S _ =>
          Ret (Ptr 2 (Z.of_nat (0 + k)),
               buffer_input {| buffer_buf := Ptr 3 0;
                               buffer_ptr := Ptr 3 (Z.of_nat (0 + k));
                               buffer_size := 11 - Z.of_nat k |},
               set_heap world_lines_open
                 (<[2%nat := list_inserts 0 (take k text_lines_unread ++ [nul])
                               (replicate 32 x2e)]> (heap world_lines_open)))
      end.
Proof.
  assert (H3 : heap world_lines_open !! 3%nat = Some text_lines)
    by (vm_compute; reflexivity).
  assert (H2 : heap world_lines_open !! 2%nat = Some (replicate 32 x2e))
    by (vm_compute; reflexivity).
  assert (Hne : 2%nat <> 3%nat) by discriminate.
  assert (Hdrop : drop 0 text_lines = text_lines_unread ++ [x00]) by reflexivity.
  assert (Hlen : Z.of_nat (length text_lines_unread) < size_t_modulus) by reflexivity.
  assert (Hsize : 2 <= 32 < size_t_modulus) by (split; [discriminate | reflexivity]).
  assert (Hroom : Z.of_nat 0 + 32 <= Z.of_nat (length (replicate 32 x2e)))
    by discriminate.
  split; [exact H3 |]. split; [exact H2 |]. split; [exact Hne |].
  split; [exact Hdrop |]. split; [exact Hlen |]. split; [exact Hsize |].
  split; [exact Hroom |].
  exact (gets_reads_line 3%nat 2%nat 0%nat 0%nat text_lines [x00] (replicate 32 x2e)
           text_lines_unread (Ptr 3 0) 32 world_lines_open
           H3 H2 Hne Hdrop Hlen Hsize Hroom).
Defined.

(** The scenario of the specification: the first line read of
    "line1\nline2" copies "line1\n", the second one "line2", and the third
    one returns null. *)
Example gets_three_times :
  match snd_input_buffer_gets (buffer_handle 3 11 0) (Ptr 2 0) 32 world_lines_open with
  | Ret (r1, input1, w1) =>
      r1 = Ptr 2 6 /\ input1 = buffer_handle 3 11 6 /\
      take 7 <$> heap w1 !! 2%nat = Some [x6c; x69; x6e; x65; x31; x0a; x00] /\
      match snd_input_buffer_gets input1 (Ptr 2 0) 32 w1 with
      | Ret (r2, input2, w2) =>
          r2 = Ptr 2 5 /\ input2 = buffer_handle 3 11 11 /\
          take 6 <$> heap w2 !! 2%nat = Some [x6c; x69; x6e; x65; x32; x00] /\
          snd_input_buffer_gets input2 (Ptr 2 0) 32 w2 = Ret (NULL, input2, w2)
      | _ => False
      end
  | _ => False
  end.
Proof. vm_compute. repeat split. Qed.

(** * Further properties of the code *)

(** ** [snd_input_buffer_open]: success, failure, negative size *)




Lemma find_nul_text (bs rest : list byte) :
  Forall (fun c => c <> nul) bs -> find_nul (bs ++ nul :: rest) = Some (length bs).
Proof.
  induction 1 as [| c bs Hc _ IH]; simpl; [done |].
  destruct (Z.eqb_spec (byte_to_int c) 0) as [E | _].
  - destruct Hc. by apply byte_to_int_inj.
  - by rewrite IH.
Qed.

Lemma strlen_text (w : world) (b : block) (o : nat) (l bs rest : list byte) :
  heap w !! b = Some l ->
  drop o l = bs ++ nul :: rest ->
  Forall (fun c => c <> nul) bs ->
  strlen w (Ptr b (Z.of_nat o)) = Ret (Z.of_nat (length bs)).
Proof.
  intros Hb Hdrop Hbs. unfold strlen. rewrite Hb.
  destruct (Z.ltb_spec (Z.of_nat o) 0); [lia |].
  by rewrite Nat2Z.id, Hdrop, find_nul_text.
Qed.

(** X3: on a source holding the bytes [bs], none of them null, followed by a
    null byte, [snd_input_buffer_open] with any negative [size] does exactly
    what it does with [size] the length of [bs]. *)
Theorem open_negative_size_is_strlen (inputp : pointer) (b : block) (o : nat)
    (l bs rest : list byte) (size : Z) (w : world) :
  heap w !! b = Some l ->
  drop o l = bs ++ nul :: rest ->
  Forall (fun c => c <> nul) bs ->
  Z.of_nat (length bs) < INT_MAX ->
  size < 0 ->
  snd_input_buffer_open inputp (Ptr b (Z.of_nat o)) size w =
  snd_input_buffer_open inputp (Ptr b (Z.of_nat o)) (Z.of_nat (length bs)) w.
Proof.
  intros Hb Hdrop Hbs Hmax Hsize.
  unfold snd_input_buffer_open, calloc_struct.
  destruct (assert _); [| done | done]. cbn [mbind outcome_bind].
  destruct (next_alloc w) as [ok1 wa] eqn:Ha.
  pose proof (next_alloc_heap w) as [Hha _]. rewrite Ha in Hha. simpl in Hha.
  destruct ok1; cbn [negb]; [| done].
  destruct (next_alloc wa) as [ok2 wb] eqn:Hb2.
  pose proof (next_alloc_heap wa) as [Hhb _]. rewrite Hb2 in Hhb. simpl in Hhb.
  destruct ok2; cbn [negb]; [| done].
  destruct (Z.ltb_spec size 0) as [_ |]; [| lia].
  destruct (Z.ltb_spec (Z.of_nat (length bs)) 0) as [| _]; [lia |].
  rewrite (strlen_text wb b o l bs rest) by (congruence || done).
  cbn [mbind outcome_bind].
  replace (to_int (Z.of_nat (length bs))) with (Z.of_nat (length bs)); [done |].
  unfold to_int, INT_MAX in *. rewrite Z.mod_small by lia. lia.
Qed.

(** "line1\nline2" opened with [size = -1]. *)
Lemma open_negative_size_is_strlen_witness :
  heap world_lines !! 1%nat = Some text_lines /\
  drop 0 text_lines = text_lines_unread ++ nul :: [] /\
  Forall (fun c => c <> nul) text_lines_unread /\
  Z.of_nat (length text_lines_unread) < INT_MAX /\
  -1 < 0 /\
  snd_input_buffer_open (Ptr 0 0) (Ptr 1 (Z.of_nat 0)) (-1) world_lines =
  snd_input_buffer_open (Ptr 0 0) (Ptr 1 (Z.of_nat 0))
    (Z.of_nat (length text_lines_unread)) world_lines.
Proof.
  assert (H1 : heap world_lines !! 1%nat = Some text_lines)
    by (vm_compute; reflexivity).
  assert (H2 : drop 0 text_lines = text_lines_unread ++ nul :: []) by reflexivity.
  assert (H3 : Forall (fun c => c <> nul) text_lines_unread)
    by (repeat constructor; discriminate).
  assert (H4 : Z.of_nat (length text_lines_unread) < INT_MAX) by reflexivity.
  assert (H5 : -1 < 0) by reflexivity.
  split; [exact H1 |]. split; [exact H2 |]. split; [exact H3 |].
  split; [exact H4 |]. split; [exact H5 |].
  exact (open_negative_size_is_strlen (Ptr 0 0) 1%nat 0%nat text_lines
           text_lines_unread [] (-1) world_lines H1 H2 H3 H4 H5).
Defined.

(** X4: the handle reads the copy that [snd_input_buffer_open] made.  In any
    later world in which the array of the handle is as it was at opening,
    whatever became of the source and of the rest, the reads return the
    original bytes in order. *)
Theorem open_reads_its_copy (inputp src : pointer) (bs : list byte) (w : world)
    (input : snd_input_t) (w1 w2 : world) :
  load_bytes w src (length bs) = Ret bs ->
  snd_input_buffer_open inputp src (Z.of_nat (length bs)) w = Ret (0, Some input, w1) ->
  (forall b : block, handle_buf input = Ptr b 0 -> heap w2 !! b = heap w1 !! b) ->
  exists input_end : snd_input_t,
    getc_times (length bs) input w2 = Ret (byte_to_int <$> bs, input_end, w2).
Proof.
  intros Hsrc (n & b & bs' & w3 & Hn & Hsize & Hfresh & Hheap3 & Hload & -> &
               Hheap1 & _)%snd_input_buffer_open_Ret Hsame.
  assert (n = Z.of_nat (length bs)) as -> by (apply Hsize; lia).
  rewrite Nat2Z.id in Hload.
  assert (bs' = bs) as ->.
  { eapply (load_bytes_weaken w w3) in Hsrc; [congruence |].
    rewrite Hheap3. by apply insert_subseteq. }
  pose proof INT_MAX_size_t.
  eexists.
  apply (getc_times_block b (bs ++ [nul]) bs [nul] w2 (Ptr b 0) 0); [| done | lia].
  rewrite (Hsame b eq_refl), Hheap1. by rewrite lookup_insert_eq.
Qed.

(** The caller overwrites its text "ab" after opening; the handle still reads
    'a' and 'b'. *)
Lemma open_reads_its_copy_witness :
  load_bytes world_ab (Ptr 1 0) (length [x61; x62]) = Ret [x61; x62] /\
  snd_input_buffer_open (Ptr 0 0) (Ptr 1 0) (Z.of_nat (length [x61; x62])) world_ab =
    Ret (0, Some (buffer_handle 3 2 0), world_ab_open) /\
  (forall b : block, handle_buf (buffer_handle 3 2 0) = Ptr b 0 ->
     heap world_ab_overwritten !! b = heap world_ab_open !! b) /\
  heap world_ab_overwritten !! 1%nat = Some [x00; x00; x00] /\
  exists input_end : snd_input_t,
    getc_times (length [x61; x62]) (buffer_handle 3 2 0) world_ab_overwritten =
      Ret (byte_to_int <$> [x61; x62], input_end, world_ab_overwritten).
Proof.
  assert (H1 : load_bytes world_ab (Ptr 1 0) (length [x61; x62]) = Ret [x61; x62])
    by (vm_compute; reflexivity).
  assert (H2 : snd_input_buffer_open (Ptr 0 0) (Ptr 1 0)
                 (Z.of_nat (length [x61; x62])) world_ab =
               Ret (0, Some (buffer_handle 3 2 0), world_ab_open))
    by (vm_compute; reflexivity).
  assert (H3 : forall b : block, handle_buf (buffer_handle 3 2 0) = Ptr b 0 ->
                 heap world_ab_overwritten !! b = heap world_ab_open !! b)
    by (intros b [= <-]; vm_compute; reflexivity).
  split; [exact H1 |]. split; [exact H2 |]. split; [exact H3 |].
  split; [vm_compute; reflexivity |].
  exact (open_reads_its_copy (Ptr 0 0) (Ptr 1 0) [x61; x62] world_ab
           (buffer_handle 3 2 0) world_ab_open world_ab_overwritten H1 H2 H3).
Defined.

(** ** [snd_input_buffer_getc] and [snd_input_buffer_ungetc] *)

(** X5: whenever [snd_input_buffer_getc] returns, the world is unchanged; with
    nothing left the result is EOF and the handle is unchanged; otherwise the
    result is the value of a byte, between 0 and 255 (the byte 0xff is 255,
    not EOF), and the remaining count is one less. *)
Theorem getc_EOF_or_byte (input : snd_input_t) (w : world) (c : Z)
    (input' : snd_input_t) (w' : world) :
  snd_input_buffer_getc input w = Ret (c, input', w') ->
  w' = w /\
  (remaining input = 0 -> c = EOF /\ input' = input) /\
  (remaining input <> 0 -> 0 <= c <= 255 /\ c <> EOF /\
     remaining input' = to_size_t (remaining input - 1)).
Proof.
  unfold snd_input_buffer_getc, remaining, as_buffer.
  destruct (input_private_data input) as [| buffer] eqn:Hpriv; [done |].
  cbn [mbind outcome_bind].
  destruct (Z.eqb_spec (buffer_size buffer) 0) as [Hz | Hnz].
  - intros [= <- <- <-]. rewrite Hpriv. split_conj; [done | done | lia].
  - cbn [buffer_ptr set_buffer_size].
    destruct (load w (buffer_ptr buffer)) as [c' | |]; try done.
    cbn [mbind outcome_bind]. intros [= <- <- <-].
    pose proof (byte_to_int_range c').
    split_conj; [done | lia |]. intros _. simpl. unfold EOF. split_conj; (done || lia).
Qed.

(** The first read of "ab". *)
Lemma getc_EOF_or_byte_witness :
  snd_input_buffer_getc (buffer_handle 3 2 0) world_ab_open =
    Ret (97, buffer_handle 3 2 1, world_ab_open) /\
  world_ab_open = world_ab_open /\
  (remaining (buffer_handle 3 2 0) = 0 ->
   97 = EOF /\ buffer_handle 3 2 1 = buffer_handle 3 2 0) /\
  (remaining (buffer_handle 3 2 0) <> 0 ->
   0 <= 97 <= 255 /\ 97 <> EOF /\
   remaining (buffer_handle 3 2 1) = to_size_t (remaining (buffer_handle 3 2 0) - 1)).
Proof.
  assert (H1 : snd_input_buffer_getc (buffer_handle 3 2 0) world_ab_open =
               Ret (97, buffer_handle 3 2 1, world_ab_open))
    by (vm_compute; reflexivity).
  split; [exact H1 |].
  exact (getc_EOF_or_byte (buffer_handle 3 2 0) world_ab_open 97
           (buffer_handle 3 2 1) world_ab_open H1).
Defined.

(** X6: with the cursor after a byte [c0] of the array (and not at its start),
    [snd_input_buffer_ungetc] of [c] compares [(unsigned char) c] with [c0]:
    when they are equal it returns [c] as given, with the cursor one back and
    the remaining count one more, the world unchanged; when they differ the
    assertion fails. *)
Theorem ungetc_checks_character (buf : pointer) (b : block) (o : nat) (size : Z)
    (array : list byte) (c0 : byte) (c : Z) (w : world) :
  heap w !! b = Some array ->
  array !! o = Some c0 ->
  buf <> Ptr b (Z.of_nat (S o)) ->
  0 <= size < size_t_modulus - 1 ->
  snd_input_buffer_ungetc
    (buffer_input {| buffer_buf := buf; buffer_ptr := Ptr b (Z.of_nat (S o));
                     buffer_size := size |}) c w =
  if to_uchar c =? byte_to_int c0
  then Ret (c,
            buffer_input {| buffer_buf := buf; buffer_ptr := Ptr b (Z.of_nat o);
                            buffer_size := size + 1 |}, w)
  else Aborted.
Proof.
  intros Harr Hc Hbuf Hsize. unfold snd_input_buffer_ungetc.
  rewrite as_buffer_buffer_input.
  cbn [mbind outcome_bind buffer_ptr buffer_buf buffer_size set_buffer_ptr
       set_buffer_size ptr_add].
  rewrite bool_decide_eq_false_2 by congruence.
  replace (Z.of_nat (S o) + -1) with (Z.of_nat o) by lia.
  rewrite (load_Ptr _ _ _ _ _ Harr Hc). cbn [mbind outcome_bind].
  rewrite (Z.eqb_sym (byte_to_int c0)).
  destruct (to_uchar c =? byte_to_int c0); [| done].
  cbn [assert mbind outcome_bind]. by rewrite to_size_t_small by lia.
Qed.

(** After 'a' of "ab" was read, 'b' is pushed back: the assertion fails. *)
Lemma ungetc_checks_character_witness :
  heap world_ab_open !! 3%nat = Some [x61; x62; x00] /\
  [x61; x62; x00] !! 0%nat = Some x61 /\
  Ptr 3 0 <> Ptr 3 (Z.of_nat 1) /\
  0 <= 1 < size_t_modulus - 1 /\
  snd_input_buffer_ungetc
    (buffer_input {| buffer_buf := Ptr 3 0; buffer_ptr := Ptr 3 (Z.of_nat 1);
                     buffer_size := 1 |}) 98 world_ab_open =
  if to_uchar 98 =? byte_to_int x61
  then Ret (98,
            buffer_input {| buffer_buf := Ptr 3 0; buffer_ptr := Ptr 3 (Z.of_nat 0);
                            buffer_size := 1 + 1 |}, world_ab_open)
  else Aborted.
Proof.
  assert (H1 : heap world_ab_open !! 3%nat = Some [x61; x62; x00])
    by (vm_compute; reflexivity).
  assert (H2 : [x61; x62; x00] !! 0%nat = Some x61) by reflexivity.
  assert (H3 : Ptr 3 0 <> Ptr 3 (Z.of_nat 1)) by discriminate.
  assert (H4 : 0 <= 1 < size_t_modulus - 1) by (unfold size_t_modulus; lia).
  split; [exact H1 |]. split; [exact H2 |]. split; [exact H3 |]. split; [exact H4 |].
  exact (ungetc_checks_character (Ptr 3 0) 3%nat 0%nat 1 [x61; x62; x00] x61 98
           world_ab_open H1 H2 H3 H4).
Defined.

(** ** Closing a buffer handle *)



Lemma run_operation_keeps_handle n op input w input' w' :
  buffer_invariant n input w ->
  run_operation op input w = Ret (input', w') ->
  input_ops input' = input_ops input /\ handle_buf input' = handle_buf input.
Proof.
  intros (buffer & b & cursor & array & Hpriv & Hbuf & Hptr & Harr & Hlen & Hn &
          Hsize & Hcur & Hsum) Hop.
  pose proof INT_MAX_size_t.
  unfold handle_buf. rewrite Hpriv.
  destruct op as [| c | str size]; cbn [run_operation] in Hop.
  - unfold snd_input_buffer_getc in Hop.
    rewrite (proj2 (as_buffer_Ret _ _) Hpriv) in Hop. cbn [mbind outcome_bind] in Hop.
    destruct (buffer_size buffer =? 0).
    + injection Hop as <- <-. by rewrite Hpriv.
    + destruct (load w _); try done. by injection Hop as <- <-.
  - unfold snd_input_buffer_ungetc in Hop.
    rewrite (proj2 (as_buffer_Ret _ _) Hpriv) in Hop. cbn [mbind outcome_bind] in Hop.
    destruct (bool_decide _).
    + injection Hop as <- <-. by rewrite Hpriv.
    + destruct (load w _); try done. cbn [mbind outcome_bind] in Hop.
      destruct (assert _); try done. by injection Hop as <- <-.
  - destruct (snd_input_buffer_gets input str size w) as [[[r i] w0] | |] eqn:Hgets;
      try done.
    injection Hop as <- <-.
    apply (snd_input_buffer_gets_counts _ buffer) in Hgets
      as (k & _ & -> & _); [done | done | lia].
Qed.

Lemma run_operations_keeps_handle n ops input w input' w' :
  buffer_invariant n input w ->
  run_operations ops input w = Ret (input', w') ->
  input_ops input' = input_ops input /\ handle_buf input' = handle_buf input.
Proof.
  revert input w. induction ops as [| op ops IH]; intros input w Hinv Hrun.
  - by injection Hrun as <- <-.
  - cbn [run_operations] in Hrun.
    destruct (run_operation op input w) as [[input1 w1] | |] eqn:Hop; try done.
    cbn [mbind outcome_bind] in Hrun.
    destruct (run_operation_keeps_handle _ _ _ _ _ _ Hinv Hop) as [<- <-].
    apply (IH input1 w1); [| done].
    apply (run_operations_invariant n [op] input w); [done |].
    cbn [run_operations]. by rewrite Hop.
Qed.


Section Close.

Context {libc : stdio_library}.

(** The handle reached from [snd_input_buffer_open] by a sequence of
    operations still has the table of the buffer backend and the array [b]
    allocated at opening, and [snd_input_close] frees that array. *)
Lemma close_reachable (inputp src : pointer) (size : Z) (w : world)
    (input : snd_input_t) (w1 : world) (ops : list operation)
    (input' : snd_input_t) (w' : world) :
  snd_input_buffer_open inputp src size w = Ret (0, Some input, w1) ->
  run_operations ops input w1 = Ret (input', w') ->
  exists (b : block) (bs : list byte),
    handle_buf input = Ptr b 0 /\
    heap w !! b = None /\
    heap w1 = <[b := bs ++ [nul]]> (heap w) /\
    streams w1 = streams w /\
    is_Some (heap w' !! b) /\
    snd_input_close input' w' = Ret (0, set_heap w' (delete b (heap w'))).
Proof.
  intros Hopen Hrun.
  destruct (open_invariant _ _ _ _ _ _ Hopen) as [_ Hinv].
  destruct (run_operations_keeps_handle _ _ _ _ _ _ Hinv Hrun) as [Hops Hbuf].
  pose proof (run_operations_invariant _ _ _ _ _ _ Hinv Hrun) as Hinv'.
  apply snd_input_buffer_open_Ret in Hopen
    as (n & b & bs & w2 & _ & _ & Hfresh & _ & _ & -> & Hheap & Hstreams).
  destruct Hinv' as (buffer & b' & cursor & array & Hpriv & Hb' & _ & Harr & _).
  unfold handle_buf in Hbuf. rewrite Hpriv in Hbuf. simpl in Hbuf.
  rewrite Hb' in Hbuf. injection Hbuf as ->.
  exists b, bs. split_conj; try done; try (by rewrite Harr).
  unfold snd_input_close, ops_of. rewrite Hops. simpl.
  unfold snd_input_buffer_close.
  rewrite (proj2 (as_buffer_Ret _ _) Hpriv). cbn [mbind outcome_bind].
  rewrite Hb'. unfold free. by rewrite Harr.
Qed.

(** X7: after [snd_input_buffer_open] and any sequence of read-char,
    push-back-char and read-line operations that returns, [snd_input_close]
    returns 0 and frees exactly the array allocated at opening, a block that
    did not exist before; every other block is as the operations left it. *)
Theorem close_after_operations (inputp src : pointer) (size : Z) (w : world)
    (input : snd_input_t) (w1 : world) (ops : list operation)
    (input' : snd_input_t) (w' : world) :
  snd_input_buffer_open inputp src size w = Ret (0, Some input, w1) ->
  run_operations ops input w1 = Ret (input', w') ->
  exists b : block,
    handle_buf input = Ptr b 0 /\
    heap w !! b = None /\
    is_Some (heap w' !! b) /\
    snd_input_close input' w' = Ret (0, set_heap w' (delete b (heap w'))).
Proof.
  intros Hopen Hrun.
  destruct (close_reachable _ _ _ _ _ _ _ _ _ Hopen Hrun)
    as (b & bs & Hbuf & Hfresh & _ & _ & Hsome & Hclose).
  by exists b.
Qed.


End Close.

(** "ab" is opened, read as a line and closed. *)
Lemma close_after_operations_witness :
  snd_input_buffer_open (Ptr 0 0) (Ptr 1 0) 2 world_ab =
    Ret (0, Some (buffer_handle 3 2 0), world_ab_open) /\
  run_operations [Read_line (Ptr 2 0) 4; Push_back_char 98]
    (buffer_handle 3 2 0) world_ab_open = Ret (buffer_handle 3 2 1, world_ab_read) /\
  exists b : block,
    handle_buf (buffer_handle 3 2 0) = Ptr b 0 /\
    heap world_ab !! b = None /\
    is_Some (heap world_ab_read !! b) /\
    @snd_input_close example_stdio (buffer_handle 3 2 1) world_ab_read =
      Ret (0, set_heap world_ab_read (delete b (heap world_ab_read))).
Proof.
  assert (H1 : snd_input_buffer_open (Ptr 0 0) (Ptr 1 0) 2 world_ab =
               Ret (0, Some (buffer_handle 3 2 0), world_ab_open))
    by (vm_compute; reflexivity).
  assert (H2 : run_operations [Read_line (Ptr 2 0) 4; Push_back_char 98]
                 (buffer_handle 3 2 0) world_ab_open =
               Ret (buffer_handle 3 2 1, world_ab_read))
    by (vm_compute; reflexivity).
  split; [exact H1 |]. split; [exact H2 |].
  exact (@close_after_operations example_stdio (Ptr 0 0) (Ptr 1 0) 2 world_ab (buffer_handle 3 2 0)
           world_ab_open [Read_line (Ptr 2 0) 4; Push_back_char 98]
           (buffer_handle 3 2 1) world_ab_read H1 H2).
Defined.


(** ** What [snd_input_buffer_gets] writes *)

Lemma changes_only_within_refl w d lo hi : changes_only_within w w d lo hi.
Proof.
  unfold changes_only_within. split_conj; [apply same_shape_refl | done |].
  intros l l' j Hl Hl' _. congruence.
Qed.

Lemma changes_only_within_trans w1 w2 w3 d lo hi :
  changes_only_within w1 w2 d lo hi -> changes_only_within w2 w3 d lo hi ->
  changes_only_within w1 w3 d lo hi.
Proof.
  intros (Hs12 & Ho12 & Hd12) (Hs23 & Ho23 & Hd23).
  unfold changes_only_within. split_conj.
  - by eapply same_shape_trans.
  - intros b Hb. by rewrite Ho23, Ho12.
  - intros l l'' j Hl Hl'' Hj.
    destruct Hs12 as (_ & _ & Hlen). specialize (Hlen d). rewrite Hl in Hlen.
    destruct (heap w2 !! d) as [l' |] eqn:Hl'; [| done].
    rewrite (Hd23 l' l'' j), (Hd12 l l' j); done.
Qed.

Lemma changes_only_within_widen w w' d lo hi lo' hi' :
  lo' <= lo -> hi <= hi' ->
  changes_only_within w w' d lo hi -> changes_only_within w w' d lo' hi'.
Proof.
  intros Hlo Hhi (Hs & Ho & Hd).
  unfold changes_only_within. split_conj; [done | done |].
  intros l l' j Hl Hl' Hj. apply (Hd l l' j); [done | done | lia].
Qed.

Lemma store_changes_only_within (w w' : world) (d : block) (ofs : Z) (c : byte) :
  store w (Ptr d ofs) c = Ret w' -> changes_only_within w w' d ofs (ofs + 1).
Proof.
  intros Hstore. pose proof (store_same_shape _ _ _ _ Hstore) as Hshape.
  apply store_Ret_inv in Hstore as (b & o & l & [= <- ->] & Hb & Ho & ->).
  unfold changes_only_within. split_conj; [done | |].
  - intros b' Hb'. simpl. by rewrite lookup_insert_ne.
  - intros l0 l' j Hl0 Hl' Hj. simpl in Hl'.
    rewrite lookup_insert_eq in Hl'. injection Hl' as <-.
    rewrite Hb in Hl0. injection Hl0 as <-.
    apply list_lookup_insert_ne. lia.
Qed.

(** The loop copies at most as many bytes as its bound [--size] allows, and
    writes them from [str] on, nowhere else. *)
Lemma gets_loop_writes buffer d ofs size bsize w buffer' str' bsize' w' :
  0 <= bsize < size_t_modulus ->
  gets_loop buffer (Ptr d ofs) size bsize w = Ret (buffer', str', bsize', w') ->
  exists k : nat,
    Z.of_nat k <= to_size_t (size - 1) /\
    str' = Ptr d (ofs + Z.of_nat k) /\
    bsize' = bsize - Z.of_nat k /\
    changes_only_within w w' d ofs (ofs + Z.of_nat k).
Proof.
  remember (Z.to_nat bsize) as n eqn:Hn.
  revert buffer ofs size bsize w Hn.
  induction n as [| n IH]; intros buffer ofs size bsize w Hn Hrange Hloop.
  - rewrite gets_loop_exit in Hloop
      by (apply andb_false_iff; right; apply Z.ltb_ge; lia).
    injection Hloop as <- <- <- <-. exists O.
    assert (0 <= to_size_t (size - 1)) by (apply Z.mod_pos_bound; done).
    rewrite !Z.add_0_r, Z.sub_0_r.
    split_conj; try (done || lia). apply changes_only_within_refl.
  - assert (Hcap : 0 <= to_size_t (size - 1) < size_t_modulus)
      by (apply Z.mod_pos_bound; done).
    destruct ((0 <? to_size_t (size - 1)) && (0 <? bsize)) eqn:Hcond.
    2:{ rewrite gets_loop_exit in Hloop by done.
        injection Hloop as <- <- <- <-. exists O.
        rewrite !Z.add_0_r, Z.sub_0_r.
        split_conj; try (done || lia). apply changes_only_within_refl. }
    apply andb_prop in Hcond as Hcond'. destruct Hcond' as [Hsz%Z.ltb_lt _].
    rewrite gets_loop_enter in Hloop by done.
    destruct (load w (buffer_ptr buffer)) as [c | |]; try done.
    cbn [mbind outcome_bind] in Hloop.
    destruct (store w (Ptr d ofs) c) as [w1 | |] eqn:Hstore; try done.
    cbn [mbind outcome_bind ptr_add] in Hloop.
    apply store_changes_only_within in Hstore.
    rewrite (to_size_t_small (bsize - 1)) in Hloop by lia.
    destruct (byte_to_int c =? byte_to_int newline).
    + injection Hloop as <- <- <- <-. exists 1%nat.
      split_conj; try (done || lia).
    + apply IH in Hloop; [| lia | lia].
      destruct Hloop as (k & Hk & -> & -> & Hch).
      rewrite (to_size_t_small (to_size_t (size - 1) - 1)) in Hk by lia.
      exists (S k). split_conj; try lia.
      * f_equal. lia.
      * eapply changes_only_within_trans.
        -- eapply changes_only_within_widen; [| | exact Hstore]; lia.
        -- eapply changes_only_within_widen; [| | exact Hch]; lia.
Qed.

(** X9: with a capacity [size >= 1], whatever the destination [str] (even
    inside the array of the handle), a call of [snd_input_buffer_gets] that
    returns has changed nothing in the world but, at most, the [size] bytes
    from [str] on: no other block, no byte before [str], no byte from
    [str + size] on, no block size, no stream. *)
Theorem gets_writes_within_size (input : snd_input_t) (buffer : snd_input_buffer_t)
    (d : block) (ofs size : Z) (w : world) (r : pointer) (input' : snd_input_t)
    (w' : world) :
  input_private_data input = Private_buffer buffer ->
  0 <= buffer_size buffer < size_t_modulus ->
  1 <= size < size_t_modulus ->
  snd_input_buffer_gets input (Ptr d ofs) size w = Ret (r, input', w') ->
  changes_only_within w w' d ofs (ofs + size).
Proof.
  intros Hpriv Hrange Hsize Hgets. unfold snd_input_buffer_gets in Hgets.
  rewrite (proj2 (as_buffer_Ret _ _) Hpriv) in Hgets. cbn [mbind outcome_bind] in Hgets.
  destruct (gets_loop buffer (Ptr d ofs) size (buffer_size buffer) w)
    as [[[[buffer1 str1] bsize1] w1] | |] eqn:Hloop; try done.
  cbn [mbind outcome_bind] in Hgets.
  apply gets_loop_writes in Hloop as (k & Hk & -> & -> & Hch); [| done].
  rewrite to_size_t_small in Hk by lia.
  destruct (_ =? _).
  - injection Hgets as <- <- <-.
    eapply changes_only_within_widen; [| | exact Hch]; lia.
  - destruct (store w1 _ nul) as [w2 | |] eqn:Hstore; try done.
    injection Hgets as <- <- <-.
    apply store_changes_only_within in Hstore.
    eapply changes_only_within_trans.
    + eapply changes_only_within_widen; [| | exact Hch]; lia.
    + eapply changes_only_within_widen; [| | exact Hstore]; lia.
Qed.

(** "ab" is read with [size = 2] into the second and third bytes of block 2:
    one byte and the terminator are written there. *)
Lemma gets_writes_within_size_witness :
  input_private_data (buffer_handle 3 2 0) =
    Private_buffer {| buffer_buf := Ptr 3 0; buffer_ptr := Ptr 3 0; buffer_size := 2 |} /\
  0 <= 2 < size_t_modulus /\
  1 <= 2 < size_t_modulus /\
  (exists w' : world,
     snd_input_buffer_gets (buffer_handle 3 2 0) (Ptr 2 1) 2 world_ab_open =
       Ret (Ptr 2 2, buffer_handle 3 2 1, w') /\
     heap w' !! 2%nat = Some [x2e; x61; x00; x2e] /\
     changes_only_within world_ab_open w' 2%nat 1 (1 + 2)).
Proof.
  assert (H1 : input_private_data (buffer_handle 3 2 0) =
               Private_buffer {| buffer_buf := Ptr 3 0; buffer_ptr := Ptr 3 0;
                                 buffer_size := 2 |}) by reflexivity.
  assert (H2 : 0 <= 2 < size_t_modulus) by (unfold size_t_modulus; lia).
  assert (H3 : 1 <= 2 < size_t_modulus) by (unfold size_t_modulus; lia).
  split; [exact H1 |]. split; [exact H2 |]. split; [exact H3 |].
  exists (set_heap world_ab_open
            (<[2%nat := [x2e; x61; x00; x2e]]> (heap world_ab_open))).
  assert (H4 : snd_input_buffer_gets (buffer_handle 3 2 0) (Ptr 2 1) 2 world_ab_open =
               Ret (Ptr 2 2, buffer_handle 3 2 1,
                    set_heap world_ab_open
                      (<[2%nat := [x2e; x61; x00; x2e]]> (heap world_ab_open))))
    by (vm_compute; reflexivity).
  split; [exact H4 |]. split; [vm_compute; reflexivity |].
  exact (gets_writes_within_size (buffer_handle 3 2 0) _ 2%nat 1 2 world_ab_open
           _ _ _ H1 H2 H3 H4).
Defined.

(** ** Reading a buffer line by line *)

Lemma load_bytes_Ptr (w : world) (b : block) (l : list byte) (n o : nat) :
  heap w !! b = Some l -> (o + n <= length l)%nat ->
  load_bytes w (Ptr b (Z.of_nat o)) n = Ret (take n (drop o l)).
Proof.
  intros Hb. revert o. induction n as [| n IH]; intros o Hlen.
  - by rewrite take_0.
  - cbn [load_bytes ptr_add].
    destruct (lookup_lt_is_Some_2 l o) as [c Hc]; [lia |].
    rewrite (load_Ptr _ _ _ _ _ Hb Hc). cbn [mbind outcome_bind].
    replace (Z.of_nat o + 1) with (Z.of_nat (S o)) by lia.
    rewrite IH by lia. cbn [mbind outcome_bind].
    by rewrite (drop_S _ _ _ Hc).
Qed.

Lemma take_drop_inserts (s : nat) (l1 l2 dest : list byte) :
  (s + length l1 + length l2 <= length dest)%nat ->
  take (length l1) (drop s (list_inserts s (l1 ++ l2) dest)) = l1.
Proof.
  intros Hlen. apply list_eq. intros i.
  destruct (decide (i < length l1)%nat) as [Hi | Hi].
  - rewrite lookup_take_lt, lookup_drop by done.
    rewrite list_lookup_inserts.
    + replace (s + i - s)%nat with i by lia. by apply lookup_app_l.
    + rewrite length_app. lia.
    + lia.
  - rewrite lookup_take_ge by lia. symmetry. apply lookup_ge_None. lia.
Qed.

Lemma line_prefix_not_nil (cap : Z) (src : list byte) :
  0 < cap -> src <> [] -> length (line_prefix cap src) <> O.
Proof.
  intros Hcap Hsrc. destruct src as [| c src]; [done |]. simpl.
  destruct (Z.leb_spec cap 0); [lia |]. by destruct (Byte.eqb c newline).
Qed.

(** One call of [snd_input_buffer_gets] in terms of the line of the
    specification. *)
Lemma gets_line_step (b d : block) (o s : nat) (array rest dest src : list byte)
    (buf : pointer) (size : Z) (w : world) :
  heap w !! b = Some array ->
  heap w !! d = Some dest ->
  d <> b ->
  drop o array = src ++ rest ->
  Z.of_nat (length src) < size_t_modulus ->
  2 <= size < size_t_modulus ->
  Z.of_nat s + size <= Z.of_nat (length dest) ->
  let input :=
    buffer_input {| buffer_buf := buf; buffer_ptr := Ptr b (Z.of_nat o);
                    buffer_size := Z.of_nat (length src) |} in
  let line := line_prefix (size - 1) src in
  snd_input_buffer_gets input (Ptr d (Z.of_nat s)) size w =
  if bool_decide (src = []) then Ret (NULL, input, w)
  else
    Ret (Ptr d (Z.of_nat (s + length line)),
         buffer_input {| buffer_buf := buf;
                         buffer_ptr := Ptr b (Z.of_nat (o + length line));
                         buffer_size := Z.of_nat (length (drop (length line) src)) |},
         set_heap w (<[d := list_inserts s (line ++ [nul]) dest]> (heap w))).
Proof.
  intros Harr Hdest Hne Hdrop Hlen Hsize Hroom input line.
  assert (Hcap : to_size_t (size - 1) = size - 1) by (apply to_size_t_small; lia).
  destruct (line_prefix_length (size - 1) src) as [Hk1 Hk2]; [lia |].
  fold line in Hk1, Hk2.
  unfold snd_input_buffer_gets, input. rewrite as_buffer_buffer_input.
  cbn [mbind outcome_bind buffer_size].
  rewrite (gets_loop_line b d array rest buf _ src o s size dest w);
    try done; rewrite Hcap; fold line; [| lia].
  cbn zeta. cbn [mbind outcome_bind buffer_size set_buffer_size buffer_buf buffer_ptr].
  case_bool_decide as Hsrc.
  - subst src. simpl. by rewrite !Nat.add_0_r, insert_id, set_heap_id.
  - assert (length line <> O) by (apply line_prefix_not_nil; [lia | done]).
    destruct (Z.eqb_spec (Z.of_nat (length src) - Z.of_nat (length line))
                (Z.of_nat (length src))) as [| _]; [lia |].
    rewrite (store_Ptr _ d _ (list_inserts s line dest)).
    + cbn [mbind outcome_bind set_heap heap streams allocs with_buffer
           set_private_data buffer_input input_type input_ops].
      rewrite insert_insert_eq, list_inserts_app_l. simpl list_inserts.
      rewrite (Nat.add_comm s), length_drop, Nat2Z.inj_sub by lia. done.
    + simpl. by rewrite lookup_insert_eq.
    + rewrite length_inserts. lia.
Qed.

(** X10: reading line by line loses and invents nothing.  With a capacity
    [size >= 2], a destination of [size] bytes outside the array and [n] calls
    allowed, [n] more than the unread bytes [src], the caller [gets_lines]
    ends with the remaining count at 0, and the lines it took from the
    destination, each of at least 1 and at most [size - 1] bytes, make up
    [src] when put end to end. *)
Theorem gets_lines_reads_all (n : nat) (b d : block) (buf : pointer) (size : Z)
    (array rest : list byte) :
  forall (src dest : list byte) (o s : nat) (w : world),
    heap w !! b = Some array ->
    heap w !! d = Some dest ->
    d <> b ->
    drop o array = src ++ rest ->
    Z.of_nat (length src) < size_t_modulus ->
    2 <= size < size_t_modulus ->
    Z.of_nat s + size <= Z.of_nat (length dest) ->
    (length src < n)%nat ->
    exists (lines : list (list byte)) (input_end : snd_input_t) (w' : world),
      gets_lines n
        (buffer_input {| buffer_buf := buf; buffer_ptr := Ptr b (Z.of_nat o);
                         buffer_size := Z.of_nat (length src) |})
        (Ptr d (Z.of_nat s)) size w = Ret (lines, input_end, w') /\
      concat lines = src /\
      remaining input_end = 0 /\
      Forall (fun line => (1 <= length line)%nat /\
                          Z.of_nat (length line) <= size - 1) lines.
Proof.
  induction n as [| n IH];
    intros src dest o s w Harr Hdest Hne Hdrop Hlen Hsize Hroom Hn; [lia |].
  cbn [gets_lines].
  rewrite (gets_line_step b d o s array rest dest src buf size w) by done.
  set (line := line_prefix (size - 1) src).
  destruct (line_prefix_length (size - 1) src) as [Hk1 Hk2]; [lia |].
  fold line in Hk1, Hk2.
  case_bool_decide as Hsrc.
  - subst src. cbn [mbind outcome_bind]. rewrite bool_decide_eq_true_2 by done.
    eexists [], _, w. split_conj; try done.
  - assert (Hk : length line <> O) by (apply line_prefix_not_nil; [lia | done]).
    cbn [mbind outcome_bind]. rewrite bool_decide_eq_false_2 by done.
    unfold remaining at 1 2. cbn [buffer_input input_private_data buffer_size].
    rewrite length_drop.
    replace (Z.to_nat (Z.of_nat (length src) - Z.of_nat (length src - length line)))
      with (length line) by lia.
    set (w1 := set_heap w (<[d := list_inserts s (line ++ [nul]) dest]> (heap w))).
    rewrite (load_bytes_Ptr w1 d (list_inserts s (line ++ [nul]) dest)).
    2:{ simpl. by rewrite lookup_insert_eq. }
    2:{ rewrite length_inserts. lia. }
    rewrite take_drop_inserts by (simpl; lia).
    cbn [mbind outcome_bind].
    rewrite <- length_drop.
    destruct (IH (drop (length line) src) (list_inserts s (line ++ [nul]) dest)
                (o + length line)%nat s w1)
      as (lines & input_end & w' & Hrun & Hcat & Hrem & Hall); try done.
    + simpl. by rewrite lookup_insert_ne.
    + simpl. by rewrite lookup_insert_eq.
    + rewrite <- drop_drop, Hdrop. by rewrite drop_app_le by lia.
    + rewrite length_drop. lia.
    + rewrite length_inserts. lia.
    + rewrite length_drop. lia.
    + rewrite Hrun. cbn [mbind outcome_bind].
      eexists (line :: lines), input_end, w'. split_conj; try done.
      * simpl. rewrite Hcat. subst line.
        rewrite (line_prefix_take (size - 1) src) at 1. apply take_drop.
      * apply Forall_cons. split; [lia | done].
Qed.

(** "line1\nline2" read into a destination of 32 bytes, at most 12 times. *)
Lemma gets_lines_reads_all_witness :
  heap world_lines_open !! 3%nat = Some text_lines /\
  heap world_lines_open !! 2%nat = Some (replicate 32 x2e) /\
  2%nat <> 3%nat /\
  drop 0 text_lines = text_lines_unread ++ [x00] /\
  Z.of_nat (length text_lines_unread) < size_t_modulus /\
  2 <= 32 < size_t_modulus /\
  Z.of_nat 0 + 32 <= Z.of_nat (length (replicate 32 x2e)) /\
  (length text_lines_unread < 12)%nat /\
  exists (lines : list (list byte)) (input_end : snd_input_t) (w' : world),
    gets_lines 12
      (buffer_input {| buffer_buf := Ptr 3 0; buffer_ptr := Ptr 3 (Z.of_nat 0);
                       buffer_size := Z.of_nat (length text_lines_unread) |})
      (Ptr 2 (Z.of_nat 0)) 32 world_lines_open = Ret (lines, input_end, w') /\
    concat lines = text_lines_unread /\
    remaining input_end = 0 /\
    Forall (fun line => (1 <= length line)%nat /\
                        Z.of_nat (length line) <= 32 - 1) lines.
Proof.
  assert (H3 : heap world_lines_open !! 3%nat = Some text_lines)
    by (vm_compute; reflexivity).
  assert (H2 : heap world_lines_open !! 2%nat = Some (replicate 32 x2e))
    by (vm_compute; reflexivity).
  assert (Hne : 2%nat <> 3%nat) by discriminate.
  assert (Hdrop : drop 0 text_lines = text_lines_unread ++ [x00]) by reflexivity.
  assert (Hlen : Z.of_nat (length text_lines_unread) < size_t_modulus) by reflexivity.
  assert (Hsize : 2 <= 32 < size_t_modulus) by (unfold size_t_modulus; lia).
  assert (Hroom : Z.of_nat 0 + 32 <= Z.of_nat (length (replicate 32 x2e)))
    by discriminate.
  assert (Hn : (length text_lines_unread < 12)%nat) by (simpl; lia).
  split; [exact H3 |]. split; [exact H2 |]. split; [exact Hne |].
  split; [exact Hdrop |]. split; [exact Hlen |]. split; [exact Hsize |].
  split; [exact Hroom |]. split; [exact Hn |].
  exact (gets_lines_reads_all 12 3%nat 2%nat (Ptr 3 0) 32 text_lines [x00]
           text_lines_unread (replicate 32 x2e) 0%nat 0%nat world_lines_open
           H3 H2 Hne Hdrop Hlen Hsize Hroom Hn).
Defined.

(** The two lines of the example, as the caller gets them. *)
Example gets_lines_example :
  match gets_lines 12 (buffer_handle 3 11 0) (Ptr 2 0) 32 world_lines_open with
  | Ret (lines, input_end, _) =>
      lines = [[x6c; x69; x6e; x65; x31; x0a]; [x6c; x69; x6e; x65; x32]] /\
      input_end = buffer_handle 3 11 11
  | _ => False
  end.
Proof. vm_compute. split; reflexivity. Qed.

(** ** The stdio constructors *)

(** X11: whenever [snd_input_stdio_attach] returns, it has touched neither the
    heap nor the streams (it never closes the stream it is given), and either
    the status is 0 with a handle of the stdio backend holding the stream and
    the flag as given, or the status is [-ENOMEM] with no handle. *)
Theorem attach_leaves_world (inputp : pointer) (fp : option FILE) (close : Z)
    (w : world) (r : Z) (h : option snd_input_t) (w' : world) :
  snd_input_stdio_attach inputp fp close w = Ret (r, h, w') ->
  heap w' = heap w /\ streams w' = streams w /\
  (r = 0 /\ h = Some (stdio_input {| stdio_close := close; stdio_fp := fp |}) \/
   r = - ENOMEM /\ h = None).
Proof.
  unfold snd_input_stdio_attach, calloc_struct.
  destruct (assert _); try done. cbn [mbind outcome_bind].
  destruct (next_alloc w) as [ok1 wa] eqn:Ha.
  pose proof (next_alloc_heap w) as [Hha Hsa]. rewrite Ha in Hha, Hsa. simpl in Hha, Hsa.
  destruct ok1; cbn [negb].
  2:{ intros [= <- <- <-]. split_conj; try done. by right. }
  destruct (next_alloc wa) as [ok2 wb] eqn:Hb.
  pose proof (next_alloc_heap wa) as [Hhb Hsb]. rewrite Hb in Hhb, Hsb. simpl in Hhb, Hsb.
  destruct ok2; cbn [negb].
  2:{ intros [= <- <- <-]. split_conj; try congruence. by right. }
  intros [= <- <- <-]. split_conj; try congruence. by left.
Qed.

(** The second allocation fails: the stream 3 stays open. *)
Lemma attach_leaves_world_witness :
  snd_input_stdio_attach (Ptr 0 0) (Some 3%nat) 0
    {| heap := ∅; streams := {[ 3%nat ]}; allocs := [true; false] |} =
    Ret (- ENOMEM, None, world_stream_attached) /\
  heap world_stream_attached = ∅ /\
  streams world_stream_attached = {[ 3%nat ]} /\
  (- ENOMEM = 0 /\
     None = Some (stdio_input {| stdio_close := 0; stdio_fp := Some 3%nat |}) \/
   - ENOMEM = - ENOMEM /\ @None snd_input_t = None).
Proof.
  assert (H1 : snd_input_stdio_attach (Ptr 0 0) (Some 3%nat) 0
                 {| heap := ∅; streams := {[ 3%nat ]}; allocs := [true; false] |} =
               Ret (- ENOMEM, None, world_stream_attached))
    by (vm_compute; reflexivity).
  split; [exact H1 |].
  exact (attach_leaves_world _ _ _ _ _ _ _ H1).
Defined.

Section Open.

Context {libc : stdio_library}.

(** X12: when [fopen] gave an open stream and an allocation of the handle
    fails, [snd_input_stdio_open] returns [-ENOMEM] without a handle and has
    closed the stream again: the streams are those that [fopen] left, less
    the new one, and the heap is untouched. *)
Theorem stdio_open_failure_closes_stream (inputp : pointer) (file mode : list byte)
    (w : world) (f : FILE) (errno : Z) (w1 : world) :
  fopen file mode w = Ret (Some f, errno, w1) ->
  f ∈ streams w1 ->
  inputp <> NULL ->
  (forall rest, allocs w1 <> true :: true :: rest) ->
  exists w2 : world,
    snd_input_stdio_open inputp file mode w = Ret (- ENOMEM, None, w2) /\
    heap w2 = heap w1 /\ streams w2 = streams w1 ∖ {[f]}.
Proof.
  intros Hfopen Hopen Hinputp Hallocs.
  unfold snd_input_stdio_open. rewrite Hfopen. cbn [mbind outcome_bind].
  rewrite bool_decide_eq_false_2 by done.
  unfold snd_input_stdio_attach, calloc_struct, next_alloc.
  rewrite !bool_decide_eq_true_2 by done. cbn [andb assert mbind outcome_bind].
  destruct (allocs w1) as [| [] [| [] al]] eqn:Hal;
    cbn [negb allocs heap streams mbind outcome_bind];
    try (change (- ENOMEM <? 0) with true; cbn iota; unfold fclose;
         cbn [streams heap allocs];
         rewrite bool_decide_eq_true_2 by done;
         eexists; split_conj; reflexivity).
  by destruct (Hallocs al).
Qed.

(** X13: when [fopen] gave an open stream [f] and the two allocations
    succeed, [snd_input_stdio_open] returns 0 and a stdio handle on [f] with
    the close flag 1, leaving heap and streams as [fopen] left them; and
    [snd_input_close] on that handle returns 0 and closes [f], nothing
    else. *)
Theorem stdio_open_then_close (inputp : pointer) (file mode : list byte)
    (w : world) (f : FILE) (errno : Z) (w1 : world) (rest : list bool) :
  fopen file mode w = Ret (Some f, errno, w1) ->
  f ∈ streams w1 ->
  inputp <> NULL ->
  allocs w1 = true :: true :: rest ->
  exists (w2 w3 : world),
    snd_input_stdio_open inputp file mode w =
      Ret (0, Some (stdio_input {| stdio_close := 1; stdio_fp := Some f |}), w2) /\
    heap w2 = heap w1 /\ streams w2 = streams w1 /\
    snd_input_close (stdio_input {| stdio_close := 1; stdio_fp := Some f |}) w2 =
      Ret (0, w3) /\
    heap w3 = heap w1 /\ streams w3 = streams w1 ∖ {[f]}.
Proof.
  intros Hfopen Hopen Hinputp Hallocs.
  unfold snd_input_stdio_open. rewrite Hfopen. cbn [mbind outcome_bind].
  rewrite bool_decide_eq_false_2 by done.
  unfold snd_input_stdio_attach, calloc_struct, next_alloc.
  rewrite !bool_decide_eq_true_2 by done. cbn [andb assert mbind outcome_bind].
  rewrite Hallocs. cbn [negb allocs heap streams mbind outcome_bind].
  change (0 <? 0) with false. cbn iota. cbn [mbind outcome_bind].
  eexists _, _. split; [reflexivity |].
  split; [done |]. split; [done |].
  split; [by apply (snd_input_close_stdio 1 f) |]. done.
Qed.

End Open.

(** With the example library: one allocation succeeds, the next one fails. *)
Lemma stdio_open_failure_closes_stream_witness :
  @fopen example_stdio [] [] world_one_alloc =
    Ret (Some 5%nat, 0,
         {| heap := ∅; streams := {[ 5%nat ]} ∪ ∅; allocs := [true] |}) /\
  5%nat ∈ streams {| heap := ∅; streams := {[ 5%nat ]} ∪ ∅; allocs := [true] |} /\
  Ptr 0 0 <> NULL /\
  (forall rest,
     allocs {| heap := ∅; streams := {[ 5%nat ]} ∪ ∅; allocs := [true] |} <>
     true :: true :: rest) /\
  exists w2 : world,
    @snd_input_stdio_open example_stdio (Ptr 0 0) [] [] world_one_alloc =
      Ret (- ENOMEM, None, w2) /\
    heap w2 = heap {| heap := ∅; streams := {[ 5%nat ]} ∪ ∅; allocs := [true] |} /\
    streams w2 =
      streams {| heap := ∅; streams := {[ 5%nat ]} ∪ ∅; allocs := [true] |} ∖ {[ 5%nat ]}.
Proof.
  assert (H1 : @fopen example_stdio [] [] world_one_alloc =
               Ret (Some 5%nat, 0,
                    {| heap := ∅; streams := {[ 5%nat ]} ∪ ∅; allocs := [true] |}))
    by reflexivity.
  assert (H2 : 5%nat ∈ streams {| heap := ∅; streams := {[ 5%nat ]} ∪ ∅;
                                   allocs := [true] |})
    by (apply elem_of_union_l, elem_of_singleton; reflexivity).
  assert (H3 : Ptr 0 0 <> NULL) by discriminate.
  assert (H4 : forall rest,
                 allocs {| heap := ∅; streams := {[ 5%nat ]} ∪ ∅; allocs := [true] |} <>
                 true :: true :: rest) by (intros rest; discriminate).
  split; [exact H1 |]. split; [exact H2 |]. split; [exact H3 |]. split; [exact H4 |].
  exact (@stdio_open_failure_closes_stream example_stdio (Ptr 0 0) [] []
           world_one_alloc 5%nat 0 _ H1 H2 H3 H4).
Defined.

(** With the example library: both allocations succeed. *)
Lemma stdio_open_then_close_witness :
  @fopen example_stdio [] [] world_two_allocs =
    Ret (Some 5%nat, 0,
         {| heap := ∅; streams := {[ 5%nat ]} ∪ ∅; allocs := [true; true] |}) /\
  5%nat ∈ streams {| heap := ∅; streams := {[ 5%nat ]} ∪ ∅; allocs := [true; true] |} /\
  Ptr 0 0 <> NULL /\
  allocs {| heap := ∅; streams := {[ 5%nat ]} ∪ ∅; allocs := [true; true] |} =
    true :: true :: [] /\
  exists (w2 w3 : world),
    @snd_input_stdio_open example_stdio (Ptr 0 0) [] [] world_two_allocs =
      Ret (0, Some (stdio_input {| stdio_close := 1; stdio_fp := Some 5%nat |}), w2) /\
    heap w2 = heap {| heap := ∅; streams := {[ 5%nat ]} ∪ ∅; allocs := [true; true] |} /\
    streams w2 =
      streams {| heap := ∅; streams := {[ 5%nat ]} ∪ ∅; allocs := [true; true] |} /\
    @snd_input_close example_stdio
      (stdio_input {| stdio_close := 1; stdio_fp := Some 5%nat |}) w2 = Ret (0, w3) /\
    heap w3 = heap {| heap := ∅; streams := {[ 5%nat ]} ∪ ∅; allocs := [true; true] |} /\
    streams w3 =
      streams {| heap := ∅; streams := {[ 5%nat ]} ∪ ∅; allocs := [true; true] |}
      ∖ {[ 5%nat ]}.
Proof.
  assert (H1 : @fopen example_stdio [] [] world_two_allocs =
               Ret (Some 5%nat, 0,
                    {| heap := ∅; streams := {[ 5%nat ]} ∪ ∅;
                       allocs := [true; true] |})) by reflexivity.
  assert (H2 : 5%nat ∈ streams {| heap := ∅; streams := {[ 5%nat ]} ∪ ∅;
                                   allocs := [true; true] |})
    by (apply elem_of_union_l, elem_of_singleton; reflexivity).
  assert (H3 : Ptr 0 0 <> NULL) by discriminate.
  assert (H4 : allocs {| heap := ∅; streams := {[ 5%nat ]} ∪ ∅;
                         allocs := [true; true] |} = true :: true :: [])
    by reflexivity.
  split; [exact H1 |]. split; [exact H2 |]. split; [exact H3 |]. split; [exact H4 |].
  exact (@stdio_open_then_close example_stdio (Ptr 0 0) [] [] world_two_allocs
           5%nat 0 _ [] H1 H2 H3 H4).
Defined.

(** ** No operation on a valid handle reads or writes out of bounds *)

(** X14: in a state satisfying the invariant, [snd_input_buffer_getc] returns
    (it never reads outside the array), and [snd_input_buffer_ungetc] has no
    undefined behaviour: it returns or its assertion fails. *)
Theorem character_operations_are_safe (n : Z) (input : snd_input_t) (w : world)
    (c : Z) :
  buffer_invariant n input w ->
  (exists r input', snd_input_buffer_getc input w = Ret (r, input', w)) /\
  snd_input_buffer_ungetc input c w <> Undef.
Proof.
  intros (buffer & b & cursor & array & Hpriv & Hbuf & Hptr & Harr & Hlen & Hn &
          Hsize & Hcur & Hsum).
  split.
  - unfold snd_input_buffer_getc.
    rewrite (proj2 (as_buffer_Ret _ _) Hpriv). cbn [mbind outcome_bind].
    destruct (Z.eqb_spec (buffer_size buffer) 0) as [| Hnz]; [by eexists _, _ |].
    cbn [set_buffer_size buffer_ptr]. rewrite Hptr.
    destruct (lookup_lt_is_Some_2 array (Z.to_nat cursor)) as [c' Hc']; [lia |].
    replace (Ptr b cursor) with (Ptr b (Z.of_nat (Z.to_nat cursor)))
      by (f_equal; lia).
    rewrite (load_Ptr _ _ _ _ _ Harr Hc'). cbn [mbind outcome_bind].
    by eexists _, _.
  - unfold snd_input_buffer_ungetc.
    rewrite (proj2 (as_buffer_Ret _ _) Hpriv). cbn [mbind outcome_bind].
    case_bool_decide as Hstart; [done |].
    rewrite Hptr, Hbuf in Hstart. assert (cursor <> 0) by congruence.
    cbn [set_buffer_ptr buffer_ptr]. rewrite Hptr. cbn [ptr_add].
    destruct (lookup_lt_is_Some_2 array (Z.to_nat (cursor + -1))) as [c' Hc'];
      [lia |].
    replace (Ptr b (cursor + -1))
      with (Ptr b (Z.of_nat (Z.to_nat (cursor + -1)))) by (f_equal; lia).
    rewrite (load_Ptr _ _ _ _ _ Harr Hc'). cbn [mbind outcome_bind].
    destruct (byte_to_int c' =? to_uchar c); cbn [assert mbind outcome_bind];
      discriminate.
Qed.

(** On "ab" with the cursor after 'a'. *)
Lemma character_operations_are_safe_witness :
  buffer_invariant 2 (buffer_handle 3 2 1) world_ab_open /\
  (exists r input',
     snd_input_buffer_getc (buffer_handle 3 2 1) world_ab_open =
       Ret (r, input', world_ab_open)) /\
  snd_input_buffer_ungetc (buffer_handle 3 2 1) 98 world_ab_open <> Undef.
Proof.
  assert (Hinv : buffer_invariant 2 (buffer_handle 3 2 1) world_ab_open).
  { exists {| buffer_buf := Ptr 3 0; buffer_ptr := Ptr 3 1; buffer_size := 1 |},
      3%nat, 1, [x61; x62; x00].
    split_conj; try reflexivity; try (vm_compute; reflexivity);
      split; discriminate. }
  split; [exact Hinv |].
  exact (character_operations_are_safe 2 (buffer_handle 3 2 1) world_ab_open 98 Hinv).
Defined.

(** X15: in a state satisfying the invariant, with a capacity [size >= 1] and
    a destination of [size] bytes in a block that is not the array of the
    handle, [snd_input_buffer_gets] returns: it reads only unread bytes of
    the array and writes only into the destination. *)
Theorem gets_is_safe (n : Z) (input : snd_input_t) (w : world) (d : block)
    (s : nat) (dest : list byte) (size : Z) :
  buffer_invariant n input w ->
  heap w !! d = Some dest ->
  handle_buf input <> Ptr d 0 ->
  1 <= size < size_t_modulus ->
  Z.of_nat s + size <= Z.of_nat (length dest) ->
  exists r input' w',
    snd_input_buffer_gets input (Ptr d (Z.of_nat s)) size w = Ret (r, input', w').
Proof.
  intros (buffer & b & cursor & array & Hpriv & Hbuf & Hptr & Harr & Hlen & Hn &
          Hbsize & Hcur & Hsum) Hdest Hd Hsize Hroom.
  pose proof INT_MAX_size_t.
  unfold handle_buf in Hd. rewrite Hpriv, Hbuf in Hd.
  assert (Hne : d <> b) by congruence.
  destruct buffer as [bbuf bptr bsize]. simpl in *. subst bbuf bptr.
  set (o := Z.to_nat cursor).
  set (src := take (Z.to_nat bsize) (drop o array)).
  set (rest := drop (Z.to_nat bsize) (drop o array)).
  assert (Hdrop : drop o array = src ++ rest) by (symmetry; apply take_drop).
  assert (Hsrc : Z.of_nat (length src) = bsize).
  { subst src. rewrite length_take, length_drop. lia. }
  assert (Hcap : to_size_t (size - 1) = size - 1) by (apply to_size_t_small; lia).
  destruct (line_prefix_length (size - 1) src) as [Hk1 Hk2]; [lia |].
  unfold snd_input_buffer_gets.
  rewrite (proj2 (as_buffer_Ret _ _) Hpriv). cbn [mbind outcome_bind buffer_size].
  replace (Ptr b cursor) with (Ptr b (Z.of_nat o)) by (f_equal; lia).
  rewrite <- Hsrc.
  rewrite (gets_loop_line b d array rest (Ptr b 0) _ src o s size dest w);
    try done; rewrite ?Hcap; try lia.
  cbn zeta. cbn [mbind outcome_bind buffer_size set_buffer_size].
  destruct (_ =? _); [by eexists _, _, _ |].
  rewrite (store_Ptr _ d _ (list_inserts s (line_prefix (size - 1) src) dest)).
  - cbn [mbind outcome_bind]. by eexists _, _, _.
  - simpl. by rewrite lookup_insert_eq.
  - rewrite length_inserts. lia.
Qed.

(** On "ab" just opened, with the 4 bytes of block 2 as destination. *)
Lemma gets_is_safe_witness :
  buffer_invariant 2 (buffer_handle 3 2 0) world_ab_open /\
  heap world_ab_open !! 2%nat = Some [x2e; x2e; x2e; x2e] /\
  handle_buf (buffer_handle 3 2 0) <> Ptr 2 0 /\
  1 <= 4 < size_t_modulus /\
  Z.of_nat 0 + 4 <= Z.of_nat (length [x2e; x2e; x2e; x2e]) /\
  exists r input' w',
    snd_input_buffer_gets (buffer_handle 3 2 0) (Ptr 2 (Z.of_nat 0)) 4 world_ab_open =
      Ret (r, input', w').
Proof.
  assert (Hinv : buffer_invariant 2 (buffer_handle 3 2 0) world_ab_open).
  { exists {| buffer_buf := Ptr 3 0; buffer_ptr := Ptr 3 0; buffer_size := 2 |},
      3%nat, 0, [x61; x62; x00].
    split_conj; try reflexivity; try (vm_compute; reflexivity);
      split; discriminate. }
  assert (H2 : heap world_ab_open !! 2%nat = Some [x2e; x2e; x2e; x2e])
    by (vm_compute; reflexivity).
  assert (H3 : handle_buf (buffer_handle 3 2 0) <> Ptr 2 0) by discriminate.
  assert (H4 : 1 <= 4 < size_t_modulus) by (unfold size_t_modulus; lia).
  assert (H5 : Z.of_nat 0 + 4 <= Z.of_nat (length [x2e; x2e; x2e; x2e]))
    by discriminate.
  split; [exact Hinv |]. split; [exact H2 |]. split; [exact H3 |].
  split; [exact H4 |]. split; [exact H5 |].
  exact (gets_is_safe 2 (buffer_handle 3 2 0) world_ab_open 2%nat 0%nat
           [x2e; x2e; x2e; x2e] 4 Hinv H2 H3 H4 H5).
Defined.
